(** * Coal-fired power plant simulator: the Streamlit front end (src/app.py)
      and the Rankine-cycle set-up (src/rankine_model.py)

    Numbers.  The program computes with Python floats.  They are modelled by
    the rationals [Q]: every constant of the program (603.0, 0.98, 1e3, ...)
    is a rational, and the arithmetic the claims are about (bounds of the
    widgets, sums, products and quotients of results) is taken exactly.
    Rounding is not modelled. *)

From Stdlib Require Import QArith Qabs Qminmax Lqa ZArith Lia List.
From stdpp Require Import gmap strings list.

Open Scope Q_scope.

(** ** Python exceptions

    Those the program can meet; each is an [Exception], so the handler of
    line 91 catches any of them when raised inside [run_rankine]. *)

Inductive exn : Type :=
| TypeError            (* arithmetic on [None] *)
| ZeroDivisionError    (* [x / 0.0] *)
| AttributeError       (* [obj.name] for a name the object lacks *)
| IndexError           (* [xs[i]] out of range *)
| LibraryError (msg : string).  (* an [Exception] raised inside tespy *)

Inductive result (A : Type) : Type :=
| Ok (a : A)
| Raise (e : exn).
Arguments Ok {A} a.
Arguments Raise {A} e.

Definition rbind {A B} (r : result A) (k : A -> result B) : result B :=
  match r with
  | Ok a => k a
  | Raise e => Raise e
  end.

(** [a / b] on floats: a zero divisor raises. *)
Definition pydiv (a b : Q) : result Q :=
  if Qeq_bool b 0 then Raise ZeroDivisionError else Ok (a / b).

(** ** The sidebar widgets (app.py, lines 17-41)

    [st.sidebar.slider(label, min_value, max_value, value, step)] shows a
    slider and returns its current position: [value] until the user moves
    it, the chosen position afterwards.  Streamlit keeps [value] inside the
    range by widening the bounds where needed (slider.py: "Ensure that
    min <= value(s) <= max, adjusting the bounds as necessary"), so the
    positions a slider can return are those of [slider_range].  A widget
    whose arguments change is a new widget and starts from [value] again.
    The grid of [step] is not modelled: every position of the range is
    admitted. *)

Definition slider_range (min_value max_value value : Q) : Q * Q :=
  let lo := Qmin min_value max_value in
  let hi := Qmax lo max_value in
  (Qmin value lo, Qmax value hi).

(** The user's hand on a widget: [None] when untouched. *)
Definition slider (min_value max_value value step : Q) (sel : option Q) : Q :=
  match sel with
  | Some v => v
  | None => value
  end.

Definition in_range (r : Q * Q) (v : Q) : bool :=
  Qle_bool (fst r) v && Qle_bool v (snd r).

(** Whether the hand position is one the slider offers. *)
Definition slider_offers (min_value max_value value : Q) (sel : option Q) : bool :=
  match sel with
  | Some v => in_range (slider_range min_value max_value value) v
  | None => true
  end.

(** [st.sidebar.number_input(label, min_value=, max_value=, value=, step=)]:
    the typed number, kept between [min_value] and [max_value]; the call
    is rejected by Streamlit when [value] itself lies outside, which the
    constants of line 40 exclude. *)
Definition number_input (min_value max_value value step : Q) (sel : option Q) : Q :=
  match sel with
  | Some v => v
  | None => value
  end.

Definition number_input_offers (min_value max_value value : Q) (sel : option Q) : bool :=
  in_range (min_value, max_value) value &&
  match sel with
  | Some v => in_range (min_value, max_value) v
  | None => true
  end.

(** What the user did to each widget, in the order of the script. *)
Record Selections : Type := {
  sel_T_steam : option Q;
  sel_p_steam : option Q;
  sel_m_steam : option Q;
  sel_p_cond : option Q;
  sel_T_cw_in : option Q;
  sel_T_cw_out : option Q;
  sel_p_cw : option Q;
  sel_eta_turbine : option Q;
  sel_eta_pump : option Q;
  sel_coal_cv : option Q;
  sel_boiler_eff : option Q   (* the integer slider of line 41, in percent *)
}.

(** The script's global variables after line 41. *)
Record Inputs : Type := {
  T_steam : Q;
  p_steam : Q;
  m_steam : Q;
  p_cond : Q;
  T_cw_in : Q;
  T_cw_out : Q;
  p_cw : Q;
  eta_turbine : Q;
  eta_pump : Q;
  coal_cv : Q;
  boiler_eff : Q
}.

Definition sidebar (u : Selections) : Inputs :=
  let T_steam := slider 400 650 603 1 (sel_T_steam u) in
  let p_steam := slider 50 300 278 1 (sel_p_steam u) in
  let m_steam := slider 400 800 532 2 (sel_m_steam u) in
  let p_cond := slider 0.01 2 0.1 0.01 (sel_p_cond u) in
  let T_cw_in := slider 5 40 20 1 (sel_T_cw_in u) in
  let T_cw_out := slider (T_cw_in + 1) 60 30 1 (sel_T_cw_out u) in
  let p_cw := slider 0 10 1.2 0.1 (sel_p_cw u) in
  let eta_turbine := slider 0.7 1 0.9 0.01 (sel_eta_turbine u) in
  let eta_pump := slider 0.5 1 0.75 0.01 (sel_eta_pump u) in
  let coal_cv := number_input 1000 40000 24000 100 (sel_coal_cv u) in
  let boiler_eff := slider 50 100 85 1 (sel_boiler_eff u) / 100 in
  {| T_steam := T_steam; p_steam := p_steam; m_steam := m_steam;
     p_cond := p_cond; T_cw_in := T_cw_in; T_cw_out := T_cw_out;
     p_cw := p_cw; eta_turbine := eta_turbine; eta_pump := eta_pump;
     coal_cv := coal_cv; boiler_eff := boiler_eff |}.

(** The selections a browser session can produce: each hand position is
    one its widget offers, the outlet slider's range depending on the inlet
    temperature read just before it. *)
Definition reachable (u : Selections) : bool :=
  slider_offers 400 650 603 (sel_T_steam u) &&
  slider_offers 50 300 278 (sel_p_steam u) &&
  slider_offers 400 800 532 (sel_m_steam u) &&
  slider_offers 0.01 2 0.1 (sel_p_cond u) &&
  slider_offers 5 40 20 (sel_T_cw_in u) &&
  slider_offers (T_cw_in (sidebar u) + 1) 60 30 (sel_T_cw_out u) &&
  slider_offers 0 10 1.2 (sel_p_cw u) &&
  slider_offers 0.7 1 0.9 (sel_eta_turbine u) &&
  slider_offers 0.5 1 0.75 (sel_eta_pump u) &&
  number_input_offers 1000 40000 24000 (sel_coal_cv u) &&
  slider_offers 50 100 85 (sel_boiler_eff u).

Definition untouched : Selections :=
  {| sel_T_steam := None; sel_p_steam := None; sel_m_steam := None;
     sel_p_cond := None; sel_T_cw_in := None; sel_T_cw_out := None;
     sel_p_cw := None; sel_eta_turbine := None; sel_eta_pump := None;
     sel_coal_cv := None; sel_boiler_eff := None |}.

(** ** The Python heap and the tespy objects the program builds

    Components, connections and networks are objects shared by reference:
    a connection keeps references to its two components, the network keeps
    references to the connections added to it, and [set_attr] mutates the
    object in place, so a parameter set after [add_conns] is seen by
    [solve].  A reference is the object's position in the heap. *)

Abbreviation ref := nat.

(** A tespy data container: the number ([.val], [None] while there is
    none) and whether the user fixed it. *)
Record dc : Type := { val : option Q; is_set : bool }.

Definition unset : dc := {| val := None; is_set := false |}.
Definition fixed (v : Q) : dc := {| val := Some v; is_set := true |}.

Inductive component_class : Type :=
| CycleCloser | SimpleHeatExchanger | Condenser | Turbine | Pump | Source | Sink.

Inductive obj : Type :=
| Component (cls : component_class) (label : string) (attrs : gmap string dc)
| Connection (source : ref) (source_id : string) (target : ref) (target_id : string)
             (label : string) (attrs : gmap string dc) (fluid : gmap string Q)
| Network (fluids : list string) (T_unit p_unit h_unit : string)
          (conns : list ref) (converged : option bool).

Abbreviation heap := (list obj).

(** Statements: they read and write the heap, and return or raise. *)
Definition M (A : Type) : Type := heap -> result A * heap.

Definition ret {A} (a : A) : M A := fun h => (Ok a, h).
Definition raise {A} (e : exn) : M A := fun h => (Raise e, h).
Definition bind {A B} (c : M A) (k : A -> M B) : M B :=
  fun h => match c h with
           | (Ok a, h') => k a h'
           | (Raise e, h') => (Raise e, h')
           end.

Notation "x <- c ;; k" := (bind c (fun x => k))
  (at level 100, c at next level, right associativity).
Notation "c ;;; k" := (bind c (fun _ => k))
  (at level 100, right associativity).

Definition alloc (o : obj) : M ref := fun h => (Ok (length h), h ++ [o]).

Definition deref (r : ref) : M obj :=
  fun h => match h !! r with
           | Some o => (Ok o, h)
           | None => (Raise (LibraryError "dangling reference"), h)
           end.

Definition store (r : ref) (o : obj) : M unit := fun h => (Ok tt, <[r := o]> h).

(** The containers an object of each class carries from its construction
    (those the program sets or reads). *)
Definition class_attrs (cls : component_class) : gmap string dc :=
  match cls with
  | Turbine | Pump => {[ "P" := unset; "eta_s" := unset; "pr" := unset ]}
  | SimpleHeatExchanger => {[ "Q" := unset; "pr" := unset ]}
  | Condenser => {[ "Q" := unset; "pr1" := unset; "pr2" := unset ]}
  | CycleCloser | Source | Sink => ∅
  end.

Definition connection_attrs : gmap string dc :=
  {[ "m" := unset; "p" := unset; "h" := unset; "T" := unset ]}.

(** [Cls(label)] *)
Definition new_component (cls : component_class) (label : string) : M ref :=
  alloc (Component cls label (class_attrs cls)).

(** [Connection(source, source_id, target, target_id, label=label)] *)
Definition new_connection (source : ref) (source_id : string)
    (target : ref) (target_id : string) (label : string) : M ref :=
  alloc (Connection source source_id target target_id label connection_attrs ∅).

(** [Network(fluids=..., T_unit=..., p_unit=..., h_unit=...)] *)
Definition new_network (fluids : list string) (T_unit p_unit h_unit : string) : M ref :=
  alloc (Network fluids T_unit p_unit h_unit [] None).

(** One keyword of [set_attr]: the container must exist; it takes the
    value and is marked as set. *)
Definition set_one (attrs : gmap string dc) (kw : string * Q) : result (gmap string dc) :=
  match attrs !! kw.1 with
  | Some _ => Ok (<[kw.1 := fixed kw.2]> attrs)
  | None => Raise (LibraryError ("no attribute " +:+ kw.1))
  end.

Fixpoint set_all (attrs : gmap string dc) (kws : list (string * Q)) : result (gmap string dc) :=
  match kws with
  | [] => Ok attrs
  | kw :: rest => rbind (set_one attrs kw) (fun attrs' => set_all attrs' rest)
  end.

(** [obj.set_attr(k1=v1, ..., fluid=fl)]; [fluid] only on connections. *)
Definition set_attr (r : ref) (kws : list (string * Q)) (fl : option (gmap string Q)) : M unit :=
  o <- deref r ;;
  match o with
  | Component cls label attrs =>
      match set_all attrs kws, fl with
      | Ok attrs', None => store r (Component cls label attrs')
      | Ok _, Some _ => raise (LibraryError "no attribute fluid")
      | Raise e, _ => raise e
      end
  | Connection s sid t tid label attrs fluid =>
      match set_all attrs kws with
      | Ok attrs' => store r (Connection s sid t tid label attrs' (default fluid fl))
      | Raise e => raise e
      end
  | Network _ _ _ _ _ _ => raise (LibraryError "no such attribute")
  end.

(** [nw.add_conns(c, ...)] *)
Definition add_conns (nw : ref) (cs : list ref) : M unit :=
  o <- deref nw ;;
  match o with
  | Network fl tu pu hu conns cv => store nw (Network fl tu pu hu (conns ++ cs) cv)
  | _ => raise AttributeError
  end.

(** ** The solver call

    [nw.solve(mode)] is tespy's: it reads the network (its connections,
    their components, every container) and either raises or returns after
    writing numbers into the containers.  What it reads is a [net_view],
    what it writes a [solution]; the function in between is the library's
    and is a parameter of the program.  On return the values are those of
    the last iterate, with [sol_converged] telling whether the iteration
    converged. *)

Record comp_view : Type := {
  cv_class : component_class;
  cv_label : string;
  cv_attrs : gmap string dc
}.

Record conn_view : Type := {
  nv_label : string;
  nv_source : comp_view;
  nv_source_id : string;
  nv_target : comp_view;
  nv_target_id : string;
  nv_attrs : gmap string dc;
  nv_fluid : gmap string Q
}.

Record net_view : Type := {
  v_fluids : list string;
  v_T_unit : string;
  v_p_unit : string;
  v_h_unit : string;
  v_conns : list conn_view
}.

Record solution : Type := {
  sol_converged : bool;
  conn_vals : gmap string (gmap string Q);   (* by connection label *)
  comp_vals : gmap string (gmap string Q)    (* by component label *)
}.

Definition solver : Type := string -> net_view -> result solution.

Definition view_comp (r : ref) : M comp_view :=
  o <- deref r ;;
  match o with
  | Component cls label attrs =>
      ret {| cv_class := cls; cv_label := label; cv_attrs := attrs |}
  | _ => raise (LibraryError "not a component")
  end.

Definition view_conn (r : ref) : M conn_view :=
  o <- deref r ;;
  match o with
  | Connection s sid t tid label attrs fluid =>
      sv <- view_comp s ;;
      tv <- view_comp t ;;
      ret {| nv_label := label; nv_source := sv; nv_source_id := sid;
             nv_target := tv; nv_target_id := tid;
             nv_attrs := attrs; nv_fluid := fluid |}
  | _ => raise (LibraryError "not a connection")
  end.

Fixpoint mapM {A B} (f : A -> M B) (xs : list A) : M (list B) :=
  match xs with
  | [] => ret []
  | x :: rest => y <- f x ;; ys <- mapM f rest ;; ret (y :: ys)
  end.

Definition network_view (nw : ref) : M net_view :=
  o <- deref nw ;;
  match o with
  | Network fl tu pu hu conns _ =>
      cs <- mapM view_conn conns ;;
      ret {| v_fluids := fl; v_T_unit := tu; v_p_unit := pu; v_h_unit := hu;
             v_conns := cs |}
  | _ => raise (LibraryError "not a network")
  end.

(** The numbers of a solution go into the containers, set or not. *)
Definition write_vals (vals : gmap string Q) (attrs : gmap string dc) : gmap string dc :=
  merge (fun (d : option dc) (v : option Q) =>
           match v with
           | Some q => Some {| val := Some q; is_set := from_option is_set false d |}
           | None => d
           end) attrs vals.

Definition write_component (sol : solution) (r : ref) : M unit :=
  o <- deref r ;;
  match o with
  | Component cls label attrs =>
      store r (Component cls label
                 (write_vals (default ∅ (comp_vals sol !! label)) attrs))
  | _ => raise (LibraryError "not a component")
  end.

Definition write_connection (sol : solution) (r : ref) : M unit :=
  o <- deref r ;;
  match o with
  | Connection s sid t tid label attrs fluid =>
      store r (Connection s sid t tid label
                 (write_vals (default ∅ (conn_vals sol !! label)) attrs) fluid) ;;;
      write_component sol s ;;;
      write_component sol t
  | _ => raise (LibraryError "not a connection")
  end.

Definition write_back (sol : solution) (nw : ref) : M unit :=
  o <- deref nw ;;
  match o with
  | Network fl tu pu hu conns _ =>
      mapM (write_connection sol) conns ;;;
      store nw (Network fl tu pu hu conns (Some (sol_converged sol)))
  | _ => raise (LibraryError "not a network")
  end.

(** [nw.solve(mode)] *)
Definition Network_solve (solve : solver) (nw : ref) (mode : string) : M unit :=
  v <- network_view nw ;;
  match solve mode v with
  | Ok sol => write_back sol nw
  | Raise e => raise e
  end.

(** ** [run_rankine] (app.py, lines 44-82) *)

Definition water : gmap string Q := {[ "water" := 1 ]}.

(** Lines 45-78: the network, its parameters and boundary conditions. *)
Definition rankine_setup
    (T_steam p_steam m_steam p_cond T_cw_in T_cw_out p_cw eta_turbine eta_pump : Q)
    : M (ref * list ref * list ref) :=
  nw <- new_network ["water"] "C" "bar" "kJ / kg" ;;
  cc <- new_component CycleCloser "cycle closer" ;;
  sg <- new_component SimpleHeatExchanger "steam generator" ;;
  mc <- new_component Condenser "main condenser" ;;
  tu <- new_component Turbine "steam turbine" ;;
  fp <- new_component Pump "feed pump" ;;
  cwso <- new_component Source "cooling water source" ;;
  cwsi <- new_component Sink "cooling water sink" ;;
  c1 <- new_connection cc "out1" tu "in1" "1" ;;
  c2 <- new_connection tu "out1" mc "in1" "2" ;;
  c3 <- new_connection mc "out1" fp "in1" "3" ;;
  c4 <- new_connection fp "out1" sg "in1" "4" ;;
  c0 <- new_connection sg "out1" cc "in1" "0" ;;
  c11 <- new_connection cwso "out1" mc "in2" "11" ;;
  c12 <- new_connection mc "out2" cwsi "in1" "12" ;;
  add_conns nw [c1; c2; c3; c4; c0; c11; c12] ;;;
  set_attr mc [("pr1", 1); ("pr2", 0.98)] None ;;;
  set_attr sg [("pr", 0.9)] None ;;;
  set_attr tu [("eta_s", eta_turbine)] None ;;;
  set_attr fp [("eta_s", eta_pump)] None ;;;
  set_attr c1 [("T", T_steam); ("p", p_steam); ("m", m_steam)] (Some water) ;;;
  set_attr c2 [("p", p_cond)] None ;;;
  set_attr c11 [("T", T_cw_in); ("p", p_cw)] (Some water) ;;;
  set_attr c12 [("T", T_cw_out)] None ;;;
  ret (nw, [c0; c1; c2; c3; c4; c11; c12], [sg; tu; fp; mc]).

Definition run_rankine (solve : solver)
    (T_steam p_steam m_steam p_cond T_cw_in T_cw_out p_cw eta_turbine eta_pump : Q)
    : M (ref * list ref * list ref) :=
  r <- rankine_setup T_steam p_steam m_steam p_cond T_cw_in T_cw_out p_cw
         eta_turbine eta_pump ;;
  Network_solve solve r.1.1 "design" ;;;
  ret r.

(** The view [run_rankine] hands to the solver, when started on heap [h]. *)
Definition solver_input (h : heap)
    (T_steam p_steam m_steam p_cond T_cw_in T_cw_out p_cw eta_turbine eta_pump : Q)
    : result net_view :=
  (bind (rankine_setup T_steam p_steam m_steam p_cond T_cw_in T_cw_out p_cw
           eta_turbine eta_pump)
        (fun r => network_view r.1.1) h).1.

(** ** The script after the sidebar (app.py, lines 84-163) *)

(** [xs[i]] *)
Definition index {A} (xs : list A) (i : nat) : M A :=
  match xs !! i with
  | Some x => ret x
  | None => raise IndexError
  end.

(** [obj.name.val] *)
Definition attr_val (r : ref) (name : string) : M (option Q) :=
  o <- deref r ;;
  match o with
  | Component _ _ attrs | Connection _ _ _ _ _ attrs _ =>
      match attrs !! name with
      | Some d => ret (val d)
      | None => raise AttributeError
      end
  | Network _ _ _ _ _ _ => raise AttributeError
  end.

(** A value used as a number: [None] in arithmetic is a [TypeError]. *)
Definition number (v : option Q) : M Q :=
  match v with
  | Some q => ret q
  | None => raise TypeError
  end.

Definition divide (a b : Q) : M Q :=
  match pydiv a b with
  | Ok q => ret q
  | Raise e => raise e
  end.

Record KPIs : Type := {
  boiler_heat_duty : Q;     (* kJ/s *)
  turbine_power : Q;        (* kW, absolute value *)
  pump_power : Q;           (* kW *)
  net_power_output : Q;     (* kW *)
  thermal_efficiency : Q;   (* % *)
  coal_flow : Q;            (* kg/s *)
  cw_flow : Q               (* kg/s *)
}.

(** Lines 96-102. *)
Definition compute_kpis (i : Inputs) (conns comps : list ref) : M KPIs :=
  sg <- index comps 0 ;;
  sgQ <- (v <- attr_val sg "Q" ;; number v) ;;
  boiler_heat_duty <- divide sgQ 1000 ;;
  tu <- index comps 1 ;;
  tuP <- (v <- attr_val tu "P" ;; number v) ;;
  tuP_kW <- divide tuP 1000 ;;
  let turbine_power := Qabs tuP_kW in
  fp <- index comps 2 ;;
  fpP <- (v <- attr_val fp "P" ;; number v) ;;
  pump_power <- divide fpP 1000 ;;
  let net_power_output := turbine_power - pump_power in
  sg' <- index comps 0 ;;
  sgQ' <- (v <- attr_val sg' "Q" ;; number v) ;;
  eff <- divide (net_power_output * 1000) sgQ' ;;
  let thermal_efficiency := eff * 100 in
  coal_flow <- divide boiler_heat_duty (coal_cv i * boiler_eff i) ;;
  c11 <- index conns 5 ;;
  m11 <- attr_val c11 "m" ;;
  let cw_flow := match m11 with Some m => m | None => 0 end in
  ret {| boiler_heat_duty := boiler_heat_duty; turbine_power := turbine_power;
         pump_power := pump_power; net_power_output := net_power_output;
         thermal_efficiency := thermal_efficiency; coal_flow := coal_flow;
         cw_flow := cw_flow |}.

Record Sankey : Type := {
  boiler_heat_mw : Q;
  turbine_power_mw : Q;
  pump_power_mw : Q;
  condenser_heat_mw : Q;
  net_power_mw : Q;
  coal_input_mw : Q;
  boiler_loss_mw : Q
}.

(** Lines 157-163. *)
Definition compute_sankey (i : Inputs) (comps : list ref) : M Sankey :=
  sg <- index comps 0 ;;
  sgQ <- (v <- attr_val sg "Q" ;; number v) ;;
  boiler_heat_mw <- divide sgQ 1000000 ;;
  tu <- index comps 1 ;;
  tuP <- (v <- attr_val tu "P" ;; number v) ;;
  tuP_mw <- divide tuP 1000000 ;;
  let turbine_power_mw := Qabs tuP_mw in
  fp <- index comps 2 ;;
  fpP <- (v <- attr_val fp "P" ;; number v) ;;
  pump_power_mw <- divide fpP 1000000 ;;
  mc <- index comps 3 ;;
  mcQ <- (v <- attr_val mc "Q" ;; number v) ;;
  mcQ_mw <- divide mcQ 1000000 ;;
  let condenser_heat_mw := Qabs mcQ_mw in
  let net_power_mw := turbine_power_mw - pump_power_mw in
  coal_input_mw <- divide boiler_heat_mw (boiler_eff i) ;;
  let boiler_loss_mw := coal_input_mw - boiler_heat_mw in
  ret {| boiler_heat_mw := boiler_heat_mw; turbine_power_mw := turbine_power_mw;
         pump_power_mw := pump_power_mw; condenser_heat_mw := condenser_heat_mw;
         net_power_mw := net_power_mw; coal_input_mw := coal_input_mw;
         boiler_loss_mw := boiler_loss_mw |}.

(** What the browser ends up showing. *)
Inductive page : Type :=
| Results (k : KPIs) (s : Sankey)     (* the metric cards and the diagram *)
| SimulationFailed (e : exn)          (* [st.error(...)], then [st.stop()] *)
| Traceback (e : exn).                (* an exception no handler caught *)

(** Lines 85-93: the call of [run_rankine] under [try], with
    [except Exception] reporting and stopping; then the lines after it,
    which no handler covers.  The script starts on an empty heap. *)
Definition app (solve : solver) (u : Selections) : page :=
  let i := sidebar u in
  match run_rankine solve (T_steam i) (p_steam i) (m_steam i) (p_cond i)
          (T_cw_in i) (T_cw_out i) (p_cw i) (eta_turbine i) (eta_pump i) [] with
  | (Raise e, _) => SimulationFailed e
  | (Ok (nw, conns, comps), h) =>
      match (k <- compute_kpis i conns comps ;;
             s <- compute_sankey i comps ;;
             ret (k, s)) h with
      | (Ok (k, s), _) => Results k s
      | (Raise e, _) => Traceback e
      end
  end.

(** src/rankine_model.py: the same statements as lines 45-81 of app.py with
    the numbers written in the script (lines 6-48), then the six values it
    prints with [:.2f] (lines 54-62), a format [None] does not take.
    [print_results] and [save] are left out. *)
Definition rankine_model (solve : solver) : M (list Q) :=
  r <- run_rankine solve 600 150 532 0.1 20 30 1.2 0.9 0.75 ;;
  c4 <- index r.1.2 4 ;;
  c1 <- index r.1.2 1 ;;
  c4T <- (v <- attr_val c4 "T" ;; number v) ;;
  c4p <- (v <- attr_val c4 "p" ;; number v) ;;
  c4h <- (v <- attr_val c4 "h" ;; number v) ;;
  c1T <- (v <- attr_val c1 "T" ;; number v) ;;
  c1p <- (v <- attr_val c1 "p" ;; number v) ;;
  c1h <- (v <- attr_val c1 "h" ;; number v) ;;
  ret [c4T; c4p; c4h; c1T; c1p; c1h].

(** The network [run_rankine] has built when it calls the solver, written
    out: seven connections in the order of [add_conns], each with its two
    components as they stand after the [set_attr] calls. *)
Section RankineNetwork.
Variables T_steam p_steam m_steam p_cond T_cw_in T_cw_out p_cw eta_turbine eta_pump : Q.

Definition cc_view : comp_view :=
  {| cv_class := CycleCloser; cv_label := "cycle closer"; cv_attrs := ∅ |}.
Definition sg_view : comp_view :=
  {| cv_class := SimpleHeatExchanger; cv_label := "steam generator";
     cv_attrs := {[ "Q" := unset; "pr" := fixed 0.9 ]} |}.
Definition mc_view : comp_view :=
  {| cv_class := Condenser; cv_label := "main condenser";
     cv_attrs := {[ "Q" := unset; "pr1" := fixed 1; "pr2" := fixed 0.98 ]} |}.
Definition tu_view : comp_view :=
  {| cv_class := Turbine; cv_label := "steam turbine";
     cv_attrs := {[ "P" := unset; "eta_s" := fixed eta_turbine; "pr" := unset ]} |}.
Definition fp_view : comp_view :=
  {| cv_class := Pump; cv_label := "feed pump";
     cv_attrs := {[ "P" := unset; "eta_s" := fixed eta_pump; "pr" := unset ]} |}.
Definition cwso_view : comp_view :=
  {| cv_class := Source; cv_label := "cooling water source"; cv_attrs := ∅ |}.
Definition cwsi_view : comp_view :=
  {| cv_class := Sink; cv_label := "cooling water sink"; cv_attrs := ∅ |}.

Definition link (label : string) (s : comp_view) (sid : string)
    (t : comp_view) (tid : string) (attrs : gmap string dc)
    (fluid : gmap string Q) : conn_view :=
  {| nv_label := label; nv_source := s; nv_source_id := sid;
     nv_target := t; nv_target_id := tid; nv_attrs := attrs; nv_fluid := fluid |}.

Definition rankine_network : net_view :=
  {| v_fluids := ["water"]; v_T_unit := "C"; v_p_unit := "bar"; v_h_unit := "kJ / kg";
     v_conns :=
       [ link "1" cc_view "out1" tu_view "in1"
           {[ "m" := fixed m_steam; "p" := fixed p_steam; "h" := unset;
              "T" := fixed T_steam ]} water;
         link "2" tu_view "out1" mc_view "in1"
           {[ "m" := unset; "p" := fixed p_cond; "h" := unset; "T" := unset ]} ∅;
         link "3" mc_view "out1" fp_view "in1" connection_attrs ∅;
         link "4" fp_view "out1" sg_view "in1" connection_attrs ∅;
         link "0" sg_view "out1" cc_view "in1" connection_attrs ∅;
         link "11" cwso_view "out1" mc_view "in2"
           {[ "m" := unset; "p" := fixed p_cw; "h" := unset;
              "T" := fixed T_cw_in ]} water;
         link "12" mc_view "out2" cwsi_view "in1"
           {[ "m" := unset; "p" := unset; "h" := unset;
              "T" := fixed T_cw_out ]} ∅ ] |}.
End RankineNetwork.

(** Reading a view by label. *)
Definition find_conn (v : net_view) (label : string) : option conn_view :=
  List.find (fun k => String.eqb (nv_label k) label) (v_conns v).

Definition conn_attr (v : net_view) (label name : string) : option dc :=
  k ← find_conn v label; nv_attrs k !! name.

Definition view_components (v : net_view) : list comp_view :=
  flat_map (fun k => [nv_source k; nv_target k]) (v_conns v).

Definition find_comp (v : net_view) (label : string) : option comp_view :=
  List.find (fun c => String.eqb (cv_label c) label) (view_components v).


(** ** The component models of the specification

    What happens inside [solve] is tespy's and not part of the repository.
    The definitions of this module follow the specification's description
    of it (sections 3, 4.1, 4.2 and 4.5): a fluid state on every
    connection, residual equations per component and per fixed value, and
    convergence as every residual within the tolerance. *)
Module Core.

(** Modelled from the spec: the fluid state a connection carries
    (section 3; the solver that owns it is absent from src). *)
Record fluid_state : Type := {
  mdot : Q;    (* m, kg/s *)
  pres : Q;    (* p, bar *)
  temp : Q;    (* T, degrees C *)
  enth : Q     (* h, kJ/kg *)
}.

(** Modelled from the spec: the iterate, one fluid state per connection
    label (section 4.5, the unknown vector; absent from src). *)
Definition iterate : Type := string -> fluid_state.

(** Modelled from the spec: the Fluid Property Provider (section 4.1),
    absent from src.  A lookup outside the valid envelope gives [None]
    (the spec's OutOfRangeError). *)
Record FluidProps : Type := {
  T_ph : Q -> Q -> option Q;   (* temperature at (p, h) *)
  s_ph : Q -> Q -> option Q;   (* entropy at (p, h) *)
  h_ps : Q -> Q -> option Q    (* enthalpy at (p, s): isentropic outlet *)
}.

(** The connection attached to a port of a component. *)
Definition inlet (v : net_view) (c : comp_view) (port : string) : option string :=
  nv_label <$> List.find (fun k => String.eqb (cv_label (nv_target k)) (cv_label c)
                                   && String.eqb (nv_target_id k) port) (v_conns v).

Definition outlet (v : net_view) (c : comp_view) (port : string) : option string :=
  nv_label <$> List.find (fun k => String.eqb (cv_label (nv_source k)) (cv_label c)
                                   && String.eqb (nv_source_id k) port) (v_conns v).

(** A parameter's equation is present when the user fixed the parameter. *)
Definition param (c : comp_view) (name : string) : option Q :=
  d ← cv_attrs c !! name; if is_set d then val d else None.

Definition when_set (o : option Q) (eqn : Q -> option (list Q)) : option (list Q) :=
  match o with
  | Some q => eqn q
  | None => Some []
  end.

(** Modelled from the spec: the residuals of one component (section 4.2),
    absent from src.  Each is written as the difference that vanishes at a
    solution.  A stream through a component has one mass flow (the
    derived results speak of its [m]): outlet minus inlet mass flow is a
    residual of every through-flow component. *)
Definition component_residuals (fp : FluidProps) (v : net_view) (x : iterate)
    (c : comp_view) : option (list Q) :=
  match cv_class c with
  | CycleCloser =>
      i ← inlet v c "in1"; o ← outlet v c "out1";
      Some [pres (x o) - pres (x i); enth (x o) - enth (x i); mdot (x o) - mdot (x i)]
  | SimpleHeatExchanger =>
      i ← inlet v c "in1"; o ← outlet v c "out1";
      r ← when_set (param c "pr") (fun pr => Some [pres (x o) - pres (x i) * pr]);
      Some ((mdot (x o) - mdot (x i)) :: r)
  | Turbine =>
      i ← inlet v c "in1"; o ← outlet v c "out1";
      r ← when_set (param c "eta_s") (fun eta =>
            s ← s_ph fp (pres (x i)) (enth (x i));
            hs ← h_ps fp (pres (x o)) s;
            Some [enth (x o) - (enth (x i) - eta * (enth (x i) - hs))]);
      Some ((mdot (x o) - mdot (x i)) :: r)
  | Pump =>
      i ← inlet v c "in1"; o ← outlet v c "out1";
      r ← when_set (param c "eta_s") (fun eta =>
            s ← s_ph fp (pres (x i)) (enth (x i));
            hs ← h_ps fp (pres (x o)) s;
            Some [enth (x o) - (enth (x i) + (hs - enth (x i)) / eta)]);
      Some ((mdot (x o) - mdot (x i)) :: r)
  | Condenser =>
      i1 ← inlet v c "in1"; o1 ← outlet v c "out1";
      i2 ← inlet v c "in2"; o2 ← outlet v c "out2";
      r1 ← when_set (param c "pr1") (fun pr => Some [pres (x o1) - pres (x i1) * pr]);
      r2 ← when_set (param c "pr2") (fun pr => Some [pres (x o2) - pres (x i2) * pr]);
      Some ([mdot (x o1) - mdot (x i1); mdot (x o2) - mdot (x i2);
             mdot (x i1) * (enth (x i1) - enth (x o1))
             - mdot (x i2) * (enth (x o2) - enth (x i2))] ++ r1 ++ r2)
  | Source | Sink => Some []
  end.

(** Modelled from the spec: the residuals of one connection (sections 3
    and 4.3), absent from src: each fixed variable holds its value, and
    the state agrees with the equation of state. *)
Definition fixed_residual (k : conn_view) (name : string) (now : Q) : list Q :=
  match d ← nv_attrs k !! name; (if is_set d then val d else None) with
  | Some q => [now - q]
  | None => []
  end.

Definition connection_residuals (fp : FluidProps) (x : iterate) (k : conn_view)
    : option (list Q) :=
  let st := x (nv_label k) in
  t ← T_ph fp (pres st) (enth st);
  Some (fixed_residual k "m" (mdot st) ++ fixed_residual k "p" (pres st) ++
        fixed_residual k "T" (temp st) ++ fixed_residual k "h" (enth st) ++
        [temp st - t]).

Fixpoint collect {A} (f : A -> option (list Q)) (xs : list A) : option (list Q) :=
  match xs with
  | [] => Some []
  | a :: rest => r ← f a; rs ← collect f rest; Some (r ++ rs)
  end.

(** Each component once, by label, in order of first appearance. *)
Fixpoint distinct (seen : list string) (cs : list comp_view) : list comp_view :=
  match cs with
  | [] => []
  | c :: rest =>
      if existsb (String.eqb (cv_label c)) seen then distinct seen rest
      else c :: distinct (cv_label c :: seen) rest
  end.

(** Modelled from the spec: [assemble_residuals] (section 4.4), absent
    from src. *)
Definition assemble_residuals (fp : FluidProps) (v : net_view) (x : iterate)
    : option (list Q) :=
  rc ← collect (component_residuals fp v x) (distinct [] (view_components v));
  rk ← collect (connection_residuals fp x) (v_conns v);
  Some (rc ++ rk).

(** Modelled from the spec: the convergence criterion (section 4.5):
    the largest absolute residual is within the tolerance. *)
Definition within (eps : Q) (rs : list Q) : bool :=
  forallb (fun r => Qle_bool (Qabs r) eps) rs.

Definition converged (fp : FluidProps) (eps : Q) (v : net_view) (x : iterate) : bool :=
  match assemble_residuals fp v x with
  | Some rs => within eps rs
  | None => false
  end.

(** The tolerance the spec names: 1e-3 of the unit (bar, kJ/kg). *)
Definition tolerance : Q := 0.001.

(** Modelled from the spec: the derived result of a component (section
    4.2), absent from src: heat duty of the steam generator and of the
    condenser, power of the turbine (positive when extracted) and of the
    pump (consumed). *)
Definition derived (v : net_view) (x : iterate) (c : comp_view) : option Q :=
  match cv_class c with
  | SimpleHeatExchanger | Pump =>
      i ← inlet v c "in1"; o ← outlet v c "out1";
      Some (mdot (x i) * (enth (x o) - enth (x i)))
  | Turbine | Condenser =>
      i ← inlet v c "in1"; o ← outlet v c "out1";
      Some (mdot (x i) * (enth (x i) - enth (x o)))
  | CycleCloser | Source | Sink => None
  end.

Definition derived_of (v : net_view) (x : iterate) (label : string) : option Q :=
  c ← find_comp v label; derived v x c.

End Core.

(** ** The design point of rankine_model.py

    The numbers of the script (600 C, 150 bar, 532 kg/s, condenser at
    0.1 bar, cooling water from 20 C to 30 C at 1.2 bar, efficiencies 0.9
    and 0.75), a steam-table excerpt at the states the cycle passes
    through, and the cycle's state at that point. *)
Module DesignPoint.
Import Core.

Definition network : net_view :=
  rankine_network 600 150 532 0.1 20 30 1.2 0.9 0.75.

Definition lookup2 (table : list (Q * Q * Q)) (a b : Q) : option Q :=
  snd <$> List.find (fun e => Qeq_bool (fst (fst e)) a && Qeq_bool (snd (fst e)) b) table.

(** Rows are (first argument, second argument, value). *)
Definition steam_table : FluidProps :=
  {| T_ph := lookup2 [ (150, 3583.1, 600); (0.1, 2262.08, 45.81);
                       (0.1, 191.81, 45.81); (500 # 3, 214.21, 46.6);
                       (1.2, 84, 20); (1.176, 125.8, 30) ];
     s_ph := lookup2 [ (150, 3583.1, 6.6796); (0.1, 191.81, 0.6492) ];
     h_ps := lookup2 [ (0.1, 6.6796, 2115.3); (500 # 3, 0.6492, 208.61) ] |}.

Definition cooling_water_flow : Q := 532 * (2262.08 - 191.81) / (125.8 - 84).

Definition state : iterate := fun label =>
  if String.eqb label "1" then
    {| mdot := 532; pres := 150; temp := 600; enth := 3583.1 |}
  else if String.eqb label "2" then
    {| mdot := 532; pres := 0.1; temp := 45.81; enth := 2262.08 |}
  else if String.eqb label "3" then
    {| mdot := 532; pres := 0.1; temp := 45.81; enth := 191.81 |}
  else if String.eqb label "4" then
    {| mdot := 532; pres := 500 # 3; temp := 46.6; enth := 214.21 |}
  else if String.eqb label "0" then
    {| mdot := 532; pres := 150; temp := 600; enth := 3583.1 |}
  else if String.eqb label "11" then
    {| mdot := cooling_water_flow; pres := 1.2; temp := 20; enth := 84 |}
  else
    {| mdot := cooling_water_flow; pres := 1.176; temp := 30; enth := 125.8 |}.

(** A solver that stops short of convergence and returns, leaving the
    values of its last iterate (in W) in the components. *)
Definition stalled : solver := fun _ _ =>
  Ok {| sol_converged := false;
        conn_vals := {[ "11" := {[ "m" := 26000 ]} ]};
        comp_vals := {[ "steam generator" := {[ "Q" := 1792000000 ]};
                        "steam turbine" := {[ "P" := -702000000 ]};
                        "feed pump" := {[ "P" := 12000000 ]};
                        "main condenser" := {[ "Q" := -1101000000 ]} ]} |}.

(** A solver that returns without having written any number. *)
Definition silent : solver := fun _ _ =>
  Ok {| sol_converged := false; conn_vals := ∅; comp_vals := ∅ |}.

(** A solver that raises. *)
Definition failing : solver := fun _ _ => Raise (LibraryError "singularity").
End DesignPoint.

(** ** Statements about runs *)

(** The network the script's solver call receives for the sidebar values. *)
Definition network_of (i : Inputs) : net_view :=
  rankine_network (T_steam i) (p_steam i) (m_steam i) (p_cond i)
    (T_cw_in i) (T_cw_out i) (p_cw i) (eta_turbine i) (eta_pump i).

(** Errors as status values only: no run ends in an uncaught exception,
    and a solve that returned without converging shows no result. *)
Definition errors_are_status_values : Prop :=
  forall (solve : solver) (u : Selections),
    (forall e, app solve u <> Traceback e) /\
    (forall sol k s,
        solve "design" (network_of (sidebar u)) = Ok sol ->
        sol_converged sol = false ->
        app solve u <> Results k s).

(** Everything a caller can read off what [run_rankine] returned. *)
Definition observe (r : ref * list ref * list ref) : M (list conn_view * list comp_view) :=
  cs <- mapM view_conn r.1.2 ;;
  ps <- mapM view_comp r.2 ;;
  ret (cs, ps).

Definition observed (out : result (ref * list ref * list ref) * heap)
    : result (list conn_view * list comp_view) :=
  match out with
  | (Ok r, h) => (observe r h).1
  | (Raise e, _) => Raise e
  end.

(** Two calls of [run_rankine] in a row, the second on the heap the first
    left behind, and what each returned. *)
Definition solve_twice (solve : solver)
    (T_steam p_steam m_steam p_cond T_cw_in T_cw_out p_cw eta_turbine eta_pump : Q)
    : result (list conn_view * list comp_view) * result (list conn_view * list comp_view) :=
  let first := run_rankine solve T_steam p_steam m_steam p_cond T_cw_in T_cw_out
                 p_cw eta_turbine eta_pump [] in
  let second := run_rankine solve T_steam p_steam m_steam p_cond T_cw_in T_cw_out
                  p_cw eta_turbine eta_pump first.2 in
  (observed first, observed second).

(** The inlet temperature moved to 35 C, every other widget untouched. *)
Definition warm_inlet : Selections :=
  {| sel_T_steam := None; sel_p_steam := None; sel_m_steam := None;
     sel_p_cond := None; sel_T_cw_in := Some 35; sel_T_cw_out := None;
     sel_p_cw := None; sel_eta_turbine := None; sel_eta_pump := None;
     sel_coal_cv := None; sel_boiler_eff := None |}.


(** ** Relocation of a run

    Whatever the heap holds when [run_rankine] starts, the objects it builds
    are new ones behind it.  A run on [pre ++ ...] is related to the run on
    the empty heap by moving every reference by [length pre]. *)

Definition shift_obj (n : nat) (o : obj) : obj :=
  match o with
  | Component cls label attrs => Component cls label attrs
  | Connection s sid t tid label attrs fluid =>
      Connection (n + s)%nat sid (n + t)%nat tid label attrs fluid
  | Network fl tu pu hu conns cv => Network fl tu pu hu (map (Nat.add n) conns) cv
  end.

Definition lift (pre l : heap) : heap := pre ++ map (shift_obj (length pre)) l.

(** [c] behind [pre] does what [c0] does on its own, with results related
    by [R], the same exceptions, and [pre] untouched. *)
Definition sim {A} (pre : heap) (R : A -> A -> Prop) (c c0 : M A) : Prop :=
  forall l,
    match c0 l with
    | (Ok a0, l') => exists a, c (lift pre l) = (Ok a, lift pre l') /\ R a a0
    | (Raise e, l') => c (lift pre l) = (Raise e, lift pre l')
    end.

Definition shifted (pre : heap) (r r0 : ref) : Prop := r = (length pre + r0)%nat.

Definition shifted_refs (pre : heap) (r r0 : ref * list ref * list ref) : Prop :=
  shifted pre r.1.1 r0.1.1 /\
  r.1.2 = map (Nat.add (length pre)) r0.1.2 /\
  r.2 = map (Nat.add (length pre)) r0.2.

Definition run_and_observe (solve : solver)
    (T_steam p_steam m_steam p_cond T_cw_in T_cw_out p_cw eta_turbine eta_pump : Q)
    : M (list conn_view * list comp_view) :=
  r <- run_rankine solve T_steam p_steam m_steam p_cond T_cw_in T_cw_out p_cw
         eta_turbine eta_pump ;;
  observe r.

(** What [run_rankine] returns on the empty heap: the network, then
    [c0, c1, c2, c3, c4, c11, c12], then [sg, tu, fp, mc]. *)
Definition first_refs : ref * list ref * list ref :=
  (0%nat, [12; 8; 9; 10; 11; 13; 14]%nat, [2; 4; 5; 3]%nat).


(** ** The tables under the diagram (app.py, lines 248-286) *)

(** Lines 251-258: the captions of the state-point table, each with the
    element of [conns] it is paired with. *)
Definition state_points (conns : list ref) : M (list (string * ref)) :=
  c3 <- index conns 3 ;;
  c0 <- index conns 0 ;;
  c1 <- index conns 1 ;;
  c2 <- index conns 2 ;;
  c5 <- index conns 5 ;;
  c6 <- index conns 6 ;;
  ret [ ("Boiler Inlet (c4)", c3); ("Boiler Outlet (c1)", c0);
        ("Turbine Exhaust (c2)", c1); ("Condenser Outlet (c3)", c2);
        ("CW Inlet (c11)", c5); ("CW Outlet (c12)", c6) ].




(** The caption of each row beside the tespy label of the connection the
    row reads. *)
Definition captioned_connections (conns : list ref) : M (list (string * string)) :=
  points <- state_points conns ;;
  mapM (fun point => k <- view_conn point.2 ;; ret (point.1, nv_label k)) points.







(** ** Reading a network view *)








(** The fixed values of a container map, as (name, value). *)
Definition fixed_in (attrs : gmap string dc) : list (string * Q) :=
  omap (fun e => if is_set e.2 then pair e.1 <$> val e.2 else None) (map_to_list attrs).

(** What the user fixed in a network: per connection and per component. *)
Definition fixed_on_connections (v : net_view) : list (string * list (string * Q)) :=
  map (fun k => (nv_label k, fixed_in (nv_attrs k))) (v_conns v).

Definition fixed_on_components (v : net_view) : list (string * list (string * Q)) :=
  map (fun c => (cv_label c, fixed_in (cv_attrs c)))
      (Core.distinct [] (view_components v)).

(** The value a solution holds for a container, by label and name. *)
Definition solution_val (vals : gmap string (gmap string Q)) (label name : string)
    : option Q :=
  m ← vals !! label; m !! name.

(** A solver that answers in design mode only. *)
Definition design_only (solve : solver) : solver := fun mode v =>
  if String.eqb mode "design" then solve mode v
  else Raise (LibraryError "offdesign").

(** ** The heap of a run on the empty heap, written out *)

Definition solved (vals : gmap string (gmap string Q)) (label : string)
    (attrs : gmap string dc) : gmap string dc :=
  write_vals (default ∅ (vals !! label)) attrs.

Section RunHeap.
Variables T_steam p_steam m_steam p_cond T_cw_in T_cw_out p_cw eta_turbine eta_pump : Q.

Definition connection_objects (write : string -> gmap string dc -> gmap string dc)
    : list obj :=
  map (fun '(s, t, k) =>
         Connection s (nv_source_id k) t (nv_target_id k) (nv_label k)
           (write (nv_label k) (nv_attrs k)) (nv_fluid k))
      (zip (zip [1; 4; 3; 5; 2; 6; 3]%nat [4; 3; 5; 2; 1; 3; 7]%nat)
           (v_conns (rankine_network T_steam p_steam m_steam p_cond T_cw_in T_cw_out
                       p_cw eta_turbine eta_pump))).

(** After line 78. *)
Definition setup_heap : heap :=
  [ Network ["water"] "C" "bar" "kJ / kg" [8; 9; 10; 11; 12; 13; 14]%nat None;
    Component CycleCloser "cycle closer" ∅;
    Component SimpleHeatExchanger "steam generator" (cv_attrs sg_view);
    Component Condenser "main condenser" (cv_attrs mc_view);
    Component Turbine "steam turbine" (cv_attrs (tu_view eta_turbine));
    Component Pump "feed pump" (cv_attrs (fp_view eta_pump));
    Component Source "cooling water source" ∅;
    Component Sink "cooling water sink" ∅ ] ++
  connection_objects (fun _ attrs => attrs).

Variable sol : solution.

(** A component is written once for every connection that touches it. *)
Definition written (times : nat) (label : string) (attrs : gmap string dc)
    : gmap string dc :=
  Nat.iter times (solved (comp_vals sol) label) attrs.

(** After [solve] returned [sol]. *)
Definition solved_heap : heap :=
  [ Network ["water"] "C" "bar" "kJ / kg" [8; 9; 10; 11; 12; 13; 14]%nat
      (Some (sol_converged sol));
    Component CycleCloser "cycle closer" (written 2 "cycle closer" ∅);
    Component SimpleHeatExchanger "steam generator"
      (written 2 "steam generator" (cv_attrs sg_view));
    Component Condenser "main condenser" (written 4 "main condenser" (cv_attrs mc_view));
    Component Turbine "steam turbine"
      (written 2 "steam turbine" (cv_attrs (tu_view eta_turbine)));
    Component Pump "feed pump" (written 2 "feed pump" (cv_attrs (fp_view eta_pump)));
    Component Source "cooling water source" (written 1 "cooling water source" ∅);
    Component Sink "cooling water sink" (written 1 "cooling water sink" ∅) ] ++
  connection_objects (solved (conn_vals sol)).
End RunHeap.

(** A container after any number of writes of the same solution value. *)
Definition after (sv : option Q) (d : dc) : dc :=
  {| val := match sv with Some q => Some q | None => val d end; is_set := is_set d |}.


(** ** What the tables show after a solve *)

(** A cell of a table after a solve: the solver's number where it left
    one, else what the container held before. *)
Definition shown (sv before : option Q) : option Q :=
  match sv with
  | Some q => Some q
  | None => before
  end.


(** ** Solver answers

    The answer of [DesignPoint.stalled], written out, and further answers
    a solve can return. *)

Definition stalled_answer : solution :=
  {| sol_converged := false;
     conn_vals := {[ "11" := {[ "m" := 26000 ]} ]};
     comp_vals := {[ "steam generator" := {[ "Q" := 1792000000 ]};
                     "steam turbine" := {[ "P" := -702000000 ]};
                     "feed pump" := {[ "P" := 12000000 ]};
                     "main condenser" := {[ "Q" := -1101000000 ]} ]} |}.

Definition cold_answer : solution :=
  {| sol_converged := true; conn_vals := ∅;
     comp_vals := {[ "steam generator" := {[ "Q" := 0 ]};
                     "steam turbine" := {[ "P" := -702000000 ]};
                     "feed pump" := {[ "P" := 12000000 ]};
                     "main condenser" := {[ "Q" := -1101000000 ]} ]} |}.


(** A solver whose answer has a steam generator that takes up no heat. *)
Definition cold : solver := fun _ _ => Ok cold_answer.

(** A solver that leaves the boiler-inlet state of [DesignPoint.state] at
    connection 4 and the live-steam enthalpy at connection 1. *)
Definition design_answer : solution :=
  {| sol_converged := true;
     conn_vals := {[ "4" := {[ "T" := 46.6; "p" := 500 # 3; "h" := 214.21 ]};
                     "1" := {[ "h" := 3583.1 ]} ]};
     comp_vals := ∅ |}.

Definition designed : solver := fun _ _ => Ok design_answer.

(** ** The energy-flow diagram (app.py, lines 195-204) *)






(** * Properties *)

(** ** The sidebar *)

Lemma in_range_bounds lo hi v : in_range (lo, hi) v = true -> lo <= v /\ v <= hi.
Proof.
  unfold in_range; simpl. intros H.
  apply andb_prop in H as [H1 H2].
  split; now apply Qle_bool_iff.
Qed.

Lemma slider_within lo hi value step sel :
  slider_offers lo hi value sel = true ->
  Qmin value (Qmin lo hi) <= slider lo hi value step sel /\
  slider lo hi value step sel <= Qmax value (Qmax (Qmin lo hi) hi).
Proof.
  unfold slider_offers, slider, slider_range.
  destruct sel as [v|]; intros H.
  - now apply in_range_bounds in H.
  - split; [apply Q.le_min_l | apply Q.le_max_l].
Qed.

Lemma number_input_within lo hi value step sel :
  number_input_offers lo hi value sel = true ->
  lo <= number_input lo hi value step sel <= hi.
Proof.
  unfold number_input_offers, number_input. intros H.
  apply andb_prop in H as [Hv Hs].
  destruct sel as [v|]; now apply in_range_bounds.
Qed.

Ltac split_reachable H :=
  unfold reachable in H; repeat (apply andb_prop in H as [H ?]).

Lemma reachable_coal u : reachable u = true ->
  1000 <= coal_cv (sidebar u) /\ 0.5 <= boiler_eff (sidebar u).
Proof.
  intros H. split_reachable H. split; simpl.
  - eapply number_input_within; eauto.
  - match goal with
    | Hs : slider_offers 50 100 85 _ = true |- _ =>
        apply (slider_within 50 100 85 1) in Hs as [Hlo _]
    end.
    assert (E : Qmin 85 (Qmin 50 100) == 50) by reflexivity.
    rewrite E in Hlo.
    apply Qle_shift_div_l; [reflexivity | lra].
Qed.

(** A condenser pressure of zero is not on the slider. *)
Lemma reachable_p_cond u : reachable u = true -> 0.01 <= p_cond (sidebar u).
Proof.
  intros H. split_reachable H. simpl.
  match goal with
  | Hs : slider_offers 0.01 2 0.1 _ = true |- _ =>
      apply (slider_within 0.01 2 0.1 0.01) in Hs as [Hlo _]
  end.
  assert (E : Qmin 0.1 (Qmin 0.01 2) == 0.01) by reflexivity.
  rewrite E in Hlo. exact Hlo.
Qed.

(** While the inlet temperature stays at or below 29 C, the outlet slider's
    lower bound is the inlet temperature plus one. *)
Lemma cool_inlet_keeps_order u :
  reachable u = true -> T_cw_in (sidebar u) <= 29 ->
  T_cw_in (sidebar u) + 1 <= T_cw_out (sidebar u).
Proof.
  intros H Hcool. split_reachable H.
  match goal with
  | Hs : slider_offers (_ + 1) 60 30 _ = true |- _ =>
      apply (slider_within _ 60 30 1) in Hs as [Hlo _]
  end.
  change (slider (T_cw_in (sidebar u) + 1) 60 30 1 (sel_T_cw_out u))
    with (T_cw_out (sidebar u)) in Hlo.
  revert Hlo. set (t := T_cw_in (sidebar u)) in *. intros Hlo.
  assert (E1 : Qmin (t + 1) 60 == t + 1) by (apply Q.min_l; lra).
  assert (E2 : Qmin 30 (Qmin (t + 1) 60) == t + 1).
  { rewrite E1. apply Q.min_r. lra. }
  rewrite E2 in Hlo. exact Hlo.
Qed.

(** C10.  For every selection the widgets offer, the calorific value is at
    least 1000 kJ/kg and the boiler efficiency at least 0.5, so their
    product is positive and the division of line 101 returns the quotient
    instead of raising. *)
Theorem coal_flow_division_defined u bhd :
  reachable u = true ->
  1000 <= coal_cv (sidebar u) /\ 0.5 <= boiler_eff (sidebar u) /\
  0 < coal_cv (sidebar u) * boiler_eff (sidebar u) /\
  pydiv bhd (coal_cv (sidebar u) * boiler_eff (sidebar u))
  = Ok (bhd / (coal_cv (sidebar u) * boiler_eff (sidebar u))).
Proof.
  intros H. destruct (reachable_coal u H) as [Hc Hb].
  assert (Hpos : 0 < coal_cv (sidebar u) * boiler_eff (sidebar u)) by nra.
  repeat split; try assumption.
  unfold pydiv.
  destruct (Qeq_bool _ 0) eqn:E; [ | reflexivity].
  apply Qeq_bool_iff in E. rewrite E in Hpos. discriminate.
Qed.

Lemma coal_flow_division_defined_untouched :
  reachable untouched = true /\
  1000 <= coal_cv (sidebar untouched) /\ 0.5 <= boiler_eff (sidebar untouched) /\
  0 < coal_cv (sidebar untouched) * boiler_eff (sidebar untouched) /\
  pydiv 1792000 (coal_cv (sidebar untouched) * boiler_eff (sidebar untouched))
  = Ok (1792000 / (coal_cv (sidebar untouched) * boiler_eff (sidebar untouched))).
Proof.
  split; [reflexivity | ].
  apply (coal_flow_division_defined untouched 1792000). reflexivity.
Defined.

(** C9, at the input where it fails.  With the inlet temperature moved to
    35 C and the outlet slider untouched, the selection is one the widgets
    offer, the outlet temperature is the slider's default 30 C, below the
    inlet temperature, and these are the two cooling-water temperatures
    fixed in the network the solver receives. *)
Lemma outlet_below_inlet_reachable :
  reachable warm_inlet = true /\
  T_cw_in (sidebar warm_inlet) == 35 /\
  T_cw_out (sidebar warm_inlet) == 30 /\
  T_cw_out (sidebar warm_inlet) < T_cw_in (sidebar warm_inlet) /\
  conn_attr (network_of (sidebar warm_inlet)) "11" "T" = Some (fixed 35) /\
  conn_attr (network_of (sidebar warm_inlet)) "12" "T" = Some (fixed 30).
Proof. repeat split; reflexivity. Qed.

(** ** Relocation lemmas *)

Section Frame.
Variable pre : heap.

Lemma sim_ret {A} (R : A -> A -> Prop) a a0 : R a a0 -> sim pre R (ret a) (ret a0).
Proof. intros H l. simpl. eauto. Qed.

Lemma sim_raise {A} (R : A -> A -> Prop) e : sim pre R (raise e) (raise e).
Proof. intros l. reflexivity. Qed.

Lemma sim_bind {A B} (R : A -> A -> Prop) (S : B -> B -> Prop) c c0 k k0 :
  sim pre R c c0 ->
  (forall a a0, R a a0 -> sim pre S (k a) (k0 a0)) ->
  sim pre S (bind c k) (bind c0 k0).
Proof.
  intros Hc Hk l. unfold bind. specialize (Hc l).
  destruct (c0 l) as [[a0|e] l'].
  - destruct Hc as (a & -> & Ra). apply (Hk a a0 Ra l').
  - rewrite Hc. reflexivity.
Qed.

Lemma sim_weaken {A} (R S : A -> A -> Prop) c c0 :
  (forall a a0, R a a0 -> S a a0) -> sim pre R c c0 -> sim pre S c c0.
Proof.
  intros HRS Hc l. specialize (Hc l). destruct (c0 l) as [[a0|e] l']; [ | exact Hc].
  destruct Hc as (a & E & Ra). eauto.
Qed.

Lemma sim_alloc o : sim pre (shifted pre) (alloc (shift_obj (length pre) o)) (alloc o).
Proof.
  intros l. unfold alloc, lift. simpl. eexists. split; [ | reflexivity].
  unfold shifted. rewrite length_app, length_map, map_app, app_assoc. reflexivity.
Qed.

Lemma sim_deref r r0 :
  shifted pre r r0 ->
  sim pre (fun o o0 => o = shift_obj (length pre) o0) (deref r) (deref r0).
Proof.
  intros -> l. unfold deref, lift.
  rewrite lookup_app_r by lia.
  replace (length pre + r0 - length pre)%nat with r0 by lia.
  change (map (shift_obj (length pre)) l) with (shift_obj (length pre) <$> l).
  rewrite list_lookup_fmap.
  destruct (l !! r0); simpl; eauto.
Qed.

Lemma sim_store r r0 o :
  shifted pre r r0 -> sim pre eq (store r (shift_obj (length pre) o)) (store r0 o).
Proof.
  intros -> l. unfold store, lift. simpl. eexists. split; [ | reflexivity].
  rewrite insert_app_r.
  change (map (shift_obj (length pre)) ?x) with (shift_obj (length pre) <$> x).
  rewrite list_fmap_insert. reflexivity.
Qed.

(** One statement of a sequence: relate the two statements, then go on
    with related results. *)
Ltac step :=
  eapply sim_bind; [ | let H := fresh "Hrel" in intros ? ? H ].
Ltac related := cbv beta in *; subst.

Lemma Forall2_shifted (rs : list ref) :
  Forall2 (shifted pre) (map (Nat.add (length pre)) rs) rs.
Proof. induction rs; simpl; constructor; auto. reflexivity. Qed.

Lemma sim_mapM {A B} (RA : A -> A -> Prop) (RB : B -> B -> Prop) f f0 xs xs0 :
  Forall2 RA xs xs0 ->
  (forall x x0, RA x x0 -> sim pre RB (f x) (f0 x0)) ->
  sim pre (Forall2 RB) (mapM f xs) (mapM f0 xs0).
Proof.
  intros Hxs Hf. induction Hxs; simpl.
  - apply sim_ret. constructor.
  - step; [apply Hf; assumption | ].
    step; [apply IHHxs | ].
    apply sim_ret. constructor; assumption.
Qed.

Lemma sim_mapM_refs {B} (f : ref -> M B) rs :
  (forall r r0, shifted pre r r0 -> sim pre eq (f r) (f r0)) ->
  sim pre eq (mapM f (map (Nat.add (length pre)) rs)) (mapM f rs).
Proof.
  intros Hf. eapply sim_weaken; [ | apply (sim_mapM (shifted pre) eq)].
  - intros a a0 H. induction H; congruence.
  - apply Forall2_shifted.
  - exact Hf.
Qed.

Lemma sim_new_component cls label :
  sim pre (shifted pre) (new_component cls label) (new_component cls label).
Proof. apply (sim_alloc (Component cls label (class_attrs cls))). Qed.

Lemma sim_new_network fl tu pu hu :
  sim pre (shifted pre) (new_network fl tu pu hu) (new_network fl tu pu hu).
Proof. apply (sim_alloc (Network fl tu pu hu [] None)). Qed.

Lemma sim_new_connection s s0 sid t t0 tid label :
  shifted pre s s0 -> shifted pre t t0 ->
  sim pre (shifted pre) (new_connection s sid t tid label)
    (new_connection s0 sid t0 tid label).
Proof.
  intros -> ->. apply (sim_alloc (Connection s0 sid t0 tid label connection_attrs ∅)).
Qed.

Lemma sim_set_attr r r0 kws fl :
  shifted pre r r0 -> sim pre eq (set_attr r kws fl) (set_attr r0 kws fl).
Proof.
  intros Hr. unfold set_attr. step; [apply sim_deref; eassumption | ]. related.
  destruct a0 as [cls label attrs | s sid t tid label attrs fluid | ]; simpl.
  - destruct (set_all attrs kws), fl; try apply sim_raise.
    apply (sim_store r r0 (Component cls label _) Hr).
  - destruct (set_all attrs kws); try apply sim_raise.
    apply (sim_store r r0 (Connection s sid t tid label _ _) Hr).
  - apply sim_raise.
Qed.

Lemma sim_add_conns nw nw0 cs cs0 :
  shifted pre nw nw0 -> cs = map (Nat.add (length pre)) cs0 ->
  sim pre eq (add_conns nw cs) (add_conns nw0 cs0).
Proof.
  intros Hr ->. unfold add_conns. step; [apply sim_deref; eassumption | ]. related.
  destruct a0 as [ | | fl tu pu hu conns cv]; simpl; try apply sim_raise.
  rewrite <- map_app.
  apply (sim_store nw nw0 (Network fl tu pu hu (conns ++ cs0) cv) Hr).
Qed.

Lemma sim_view_comp r r0 :
  shifted pre r r0 -> sim pre eq (view_comp r) (view_comp r0).
Proof.
  intros Hr. unfold view_comp. step; [apply sim_deref; eassumption | ]. related.
  destruct a0; simpl; try apply sim_raise. apply sim_ret. reflexivity.
Qed.

Lemma sim_view_conn r r0 :
  shifted pre r r0 -> sim pre eq (view_conn r) (view_conn r0).
Proof.
  intros Hr. unfold view_conn. step; [apply sim_deref; eassumption | ]. related.
  destruct a0; simpl; try apply sim_raise.
  step; [apply sim_view_comp; reflexivity | ]. related.
  step; [apply sim_view_comp; reflexivity | ]. related.
  apply sim_ret. reflexivity.
Qed.

Lemma sim_network_view nw nw0 :
  shifted pre nw nw0 -> sim pre eq (network_view nw) (network_view nw0).
Proof.
  intros Hr. unfold network_view. step; [apply sim_deref; eassumption | ]. related.
  destruct a0; simpl; try apply sim_raise.
  step; [apply sim_mapM_refs, sim_view_conn | ]. related.
  apply sim_ret. reflexivity.
Qed.

Lemma sim_write_component sol r r0 :
  shifted pre r r0 -> sim pre eq (write_component sol r) (write_component sol r0).
Proof.
  intros Hr. unfold write_component. step; [apply sim_deref; eassumption | ]. related.
  destruct a0 as [cls label attrs | | ]; simpl; try apply sim_raise.
  apply (sim_store r r0 (Component cls label _) Hr).
Qed.

Lemma sim_write_connection sol r r0 :
  shifted pre r r0 -> sim pre eq (write_connection sol r) (write_connection sol r0).
Proof.
  intros Hr. unfold write_connection. step; [apply sim_deref; eassumption | ]. related.
  destruct a0 as [ | s sid t tid label attrs fluid | ]; simpl; try apply sim_raise.
  step; [apply (sim_store r r0 (Connection s sid t tid label _ _) Hr) | ].
  step; [apply sim_write_component; reflexivity | ].
  apply sim_write_component; reflexivity.
Qed.

Lemma sim_write_back sol nw nw0 :
  shifted pre nw nw0 -> sim pre eq (write_back sol nw) (write_back sol nw0).
Proof.
  intros Hr. unfold write_back. step; [apply sim_deref; eassumption | ]. related.
  destruct a0 as [ | | fl tu pu hu conns cv]; simpl; try apply sim_raise.
  step; [apply sim_mapM_refs, sim_write_connection | ].
  apply (sim_store nw nw0 (Network fl tu pu hu conns _) Hr).
Qed.

Lemma sim_Network_solve solve nw nw0 mode :
  shifted pre nw nw0 ->
  sim pre eq (Network_solve solve nw mode) (Network_solve solve nw0 mode).
Proof.
  intros Hr. unfold Network_solve. step; [apply sim_network_view; eassumption | ]. related.
  destruct (solve mode a0); [apply sim_write_back; assumption | apply sim_raise].
Qed.

Section Arguments.
Variables a b c d e f g i j : Q.

Lemma sim_rankine_setup :
  sim pre (shifted_refs pre) (rankine_setup a b c d e f g i j)
    (rankine_setup a b c d e f g i j).
Proof.
  unfold rankine_setup.
  step; [apply sim_new_network | ].
  do 7 (step; [apply sim_new_component | ]).
  do 7 (step; [apply sim_new_connection; assumption | ]).
  step; [apply sim_add_conns; [assumption | unfold shifted in *; simpl; congruence] | ].
  do 8 (step; [apply sim_set_attr; assumption | ]).
  apply sim_ret. unfold shifted_refs, shifted in *. simpl. repeat split; congruence.
Qed.

Lemma sim_solver_input :
  sim pre eq
    (bind (rankine_setup a b c d e f g i j) (fun r => network_view r.1.1))
    (bind (rankine_setup a b c d e f g i j) (fun r => network_view r.1.1)).
Proof.
  step; [apply sim_rankine_setup | ]. apply sim_network_view, Hrel.
Qed.

Lemma sim_run_rankine solve :
  sim pre (shifted_refs pre) (run_rankine solve a b c d e f g i j)
    (run_rankine solve a b c d e f g i j).
Proof.
  unfold run_rankine.
  step; [apply sim_rankine_setup | ].
  step; [apply sim_Network_solve; apply Hrel | ].
  apply sim_ret. assumption.
Qed.

Lemma sim_observe r r0 : shifted_refs pre r r0 -> sim pre eq (observe r) (observe r0).
Proof.
  intros (H1 & H2 & H3). unfold observe. rewrite H2, H3.
  step; [apply sim_mapM_refs, sim_view_conn | ]. related.
  step; [apply sim_mapM_refs, sim_view_comp | ]. related.
  apply sim_ret. reflexivity.
Qed.

Lemma sim_run_and_observe solve :
  sim pre eq (run_and_observe solve a b c d e f g i j)
    (run_and_observe solve a b c d e f g i j).
Proof.
  unfold run_and_observe. step; [apply sim_run_rankine | ]. apply sim_observe. assumption.
Qed.

End Arguments.
End Frame.

(** A relocatable computation has the same outcome behind any heap. *)
Lemma sim_eq_nil {A} (c : M A) h : sim h eq c c -> (c h).1 = (c []).1.
Proof.
  intros H. specialize (H []). unfold lift in H. simpl in H. rewrite app_nil_r in H.
  destruct (c []) as [[o|x] l'].
  - destruct H as (o' & -> & ->). reflexivity.
  - rewrite H. reflexivity.
Qed.

Lemma observed_run solve a b c d e f g i j h :
  observed (run_rankine solve a b c d e f g i j h)
  = (run_and_observe solve a b c d e f g i j h).1.
Proof.
  unfold observed, run_and_observe, bind.
  destruct (run_rankine solve a b c d e f g i j h) as [[r|x] h']; reflexivity.
Qed.

Lemma observed_from_nil solve a b c d e f g i j h :
  observed (run_rankine solve a b c d e f g i j h)
  = observed (run_rankine solve a b c d e f g i j []).
Proof.
  rewrite !observed_run. apply sim_eq_nil, sim_run_and_observe.
Qed.


(** Two solves in a row return the same. *)
Lemma solve_twice_same solve a b c d e f g i j :
  (solve_twice solve a b c d e f g i j).1 = (solve_twice solve a b c d e f g i j).2.
Proof.
  unfold solve_twice. cbv beta zeta iota delta [fst snd].
  symmetry. apply observed_from_nil.
Qed.

(** ** What [run_rankine] hands to the solver *)

Section Run.
Variables a b c d e f g i j : Q.

Lemma solver_input_nil :
  solver_input [] a b c d e f g i j = Ok (rankine_network a b c d e f g i j).
Proof. vm_compute. reflexivity. Qed.

Lemma solver_input_any h :
  solver_input h a b c d e f g i j = Ok (rankine_network a b c d e f g i j).
Proof.
  rewrite <- solver_input_nil. unfold solver_input.
  apply sim_eq_nil, sim_solver_input.
Qed.

Lemma setup_returns : (rankine_setup a b c d e f g i j []).1 = Ok first_refs.
Proof. vm_compute. reflexivity. Qed.

Lemma network_view_setup :
  network_view 0%nat (rankine_setup a b c d e f g i j []).2
  = (Ok (rankine_network a b c d e f g i j), (rankine_setup a b c d e f g i j []).2).
Proof. vm_compute. reflexivity. Qed.

Lemma write_back_returns sol :
  (write_back sol 0%nat (rankine_setup a b c d e f g i j []).2).1 = Ok tt.
Proof. vm_compute. reflexivity. Qed.

(** The run on the empty heap, up to the solver's answer. *)
Lemma run_rankine_nil solve :
  run_rankine solve a b c d e f g i j []
  = match solve "design" (rankine_network a b c d e f g i j) with
    | Ok sol =>
        (Ok first_refs, (write_back sol 0%nat (rankine_setup a b c d e f g i j []).2).2)
    | Raise x => (Raise x, (rankine_setup a b c d e f g i j []).2)
    end.
Proof.
  unfold run_rankine, bind.
  pose proof setup_returns as R. pose proof network_view_setup as V.
  destruct (rankine_setup a b c d e f g i j []) as [r h] eqn:E.
  cbv beta iota delta [fst snd] in R, V. subst r.
  cbv beta iota delta [fst snd first_refs].
  unfold Network_solve, bind. rewrite V.
  destruct (solve "design" _) as [sol|x]; [ | reflexivity].
  pose proof (write_back_returns sol) as W. rewrite E in W.
  cbv beta iota delta [fst snd] in W.
  destruct (write_back sol 0%nat h) as [w h1].
  cbv beta iota delta [fst snd] in W. subst w. reflexivity.
Qed.

End Run.


(** The solver is consulted once, on that network, and nothing else of it
    reaches the caller. *)
Lemma run_rankine_uses_solver_once (solve1 solve2 : solver) a b c d e f g i j :
  solve1 "design" (rankine_network a b c d e f g i j)
  = solve2 "design" (rankine_network a b c d e f g i j) ->
  run_rankine solve1 a b c d e f g i j [] = run_rankine solve2 a b c d e f g i j [].
Proof. intros H. rewrite !run_rankine_nil, H. reflexivity. Qed.

(** ** The page *)

Lemma app_unfold solve u :
  app solve u
  = match solve "design" (network_of (sidebar u)) with
    | Raise e => SimulationFailed e
    | Ok sol =>
        let i := sidebar u in
        let h := (write_back sol 0%nat
                    (rankine_setup (T_steam i) (p_steam i) (m_steam i) (p_cond i)
                       (T_cw_in i) (T_cw_out i) (p_cw i) (eta_turbine i)
                       (eta_pump i) []).2).2 in
        match (k <- compute_kpis i first_refs.1.2 first_refs.2 ;;
               s <- compute_sankey i first_refs.2 ;;
               ret (k, s)) h with
        | (Ok (k, s), _) => Results k s
        | (Raise e, _) => Traceback e
        end
    end.
Proof.
  unfold app, network_of. rewrite run_rankine_nil.
  destruct (solve "design" _); reflexivity.
Qed.

(** C1, as the program has it.  The page reports a failed simulation with
    exception [e] exactly when the solver raised [e] on the network built
    from the sidebar; the report carries no result value. *)
Theorem failure_reported_iff_solver_raises solve u e :
  app solve u = SimulationFailed e <->
  solve "design" (network_of (sidebar u)) = Raise e.
Proof.
  rewrite app_unfold.
  destruct (solve "design" (network_of (sidebar u))) as [sol|x].
  - cbv zeta.
    match goal with
    | |- context [match ?run with (r, _) => _ end] => destruct run as [[[k s]|x] h']
    end; split; discriminate.
  - split; intros H; injection H as H; subst; reflexivity.
Qed.

(** A solver that raises has its exception on the page, and nothing else. *)
Lemma failing_solve_is_reported :
  app DesignPoint.failing untouched = SimulationFailed (LibraryError "singularity").
Proof. vm_compute. reflexivity. Qed.

(** A solver that returned without converging has its numbers on the page. *)
Lemma stalled_solve_shows_results :
  exists k s, app DesignPoint.stalled untouched = Results k s /\
              net_power_output k == 690000 /\ net_power_mw s == 690.
Proof. eexists. eexists. split; [vm_compute; reflexivity | split; reflexivity]. Qed.

(** A solver that returned without numbers ends the script in an
    exception outside the handler. *)
Lemma silent_solve_ends_in_traceback :
  app DesignPoint.silent untouched = Traceback TypeError.
Proof. vm_compute. reflexivity. Qed.

(** C1, as stated, fails: there are runs that end in an uncaught exception,
    and runs that show results of a solve that did not converge. *)
Lemma errors_not_all_status_values : ~ errors_are_status_values.
Proof.
  intros H.
  destruct (H DesignPoint.stalled untouched) as [_ Hshown].
  destruct stalled_solve_shows_results as (k & s & Hpage & _).
  apply (Hshown _ k s eq_refl); [reflexivity | exact Hpage].
Qed.

(** ** Converged states of the cycle *)

Lemma Qabs_scaled a b e : Qabs b <= e -> Qabs (a * b) <= e * Qabs a.
Proof.
  intros H. rewrite Qabs_Qmult, Qmult_comm.
  apply Qmult_le_compat_r; [exact H | apply Qabs_nonneg].
Qed.

Lemma Qabs_flip a b : Qabs (a - b) == Qabs (b - a).
Proof. rewrite <- Qabs_opp. apply Qabs_wd. ring. Qed.

Lemma Qabs_chain a b c e1 e2 :
  Qabs (a - b) <= e1 -> Qabs (b - c) <= e2 -> Qabs (a - c) <= e1 + e2.
Proof.
  intros H1 H2.
  assert (E : a - c == (a - b) + (b - c)) by ring. rewrite E.
  eapply Qle_trans; [apply Qabs_triangle | ]. lra.
Qed.

Lemma collect_In {A} (f : A -> option (list Q)) xs rs a :
  Core.collect f xs = Some rs -> In a xs -> exists r, f a = Some r /\ incl r rs.
Proof.
  revert rs. induction xs as [|y ys IH]; intros rs Hc Hin; [destruct Hin | ].
  simpl in Hc.
  destruct (f y) as [r|] eqn:Ey; [ | discriminate]. simpl in Hc.
  destruct (Core.collect f ys) as [rs'|] eqn:Eys; [ | discriminate]. simpl in Hc.
  injection Hc as Hc; subst rs.
  destruct Hin as [-> | Hin].
  - exists r. split; [assumption | apply incl_appl, incl_refl].
  - destruct (IH rs' eq_refl Hin) as (r' & Hr' & Hincl).
    exists r'. split; [assumption | apply incl_appr, Hincl].
Qed.

Lemma within_In eps rs r : Core.within eps rs = true -> In r rs -> Qabs r <= eps.
Proof.
  unfold Core.within. rewrite forallb_forall. intros H Hin.
  apply Qle_bool_iff, H, Hin.
Qed.

Section Converged.
Import Core.
Variables (fp : FluidProps) (eps : Q) (v : net_view) (x : iterate).
Hypothesis Hconv : converged fp eps v x = true.

(** At a converged iterate every residual of every component is small. *)
Lemma converged_component c :
  In c (distinct [] (view_components v)) ->
  exists rs, component_residuals fp v x c = Some rs /\
             forall r, In r rs -> Qabs r <= eps.
Proof.
  intros Hin. unfold converged, assemble_residuals in Hconv.
  destruct (collect (component_residuals fp v x) _) as [rc|] eqn:Ec; [ | discriminate].
  simpl in Hconv.
  destruct (collect (connection_residuals fp x) _) as [rk|] eqn:Ek; [ | discriminate].
  simpl in Hconv.
  destruct (collect_In _ _ _ _ Ec Hin) as (rs & Hrs & Hincl).
  exists rs. split; [assumption | ].
  intros r Hr. apply (within_In eps (rc ++ rk)); [assumption | ].
  apply in_or_app. left. apply Hincl, Hr.
Qed.

(** Mass flow is kept across every component a stream runs through. *)
Lemma through_flow c i o :
  In c (distinct [] (view_components v)) ->
  cv_class c <> Source -> cv_class c <> Sink ->
  inlet v c "in1" = Some i -> outlet v c "out1" = Some o ->
  Qabs (mdot (x o) - mdot (x i)) <= eps.
Proof.
  intros Hin Hso Hsi Hi Ho.
  destruct (converged_component c Hin) as (rs & Hrs & Hall).
  apply Hall. unfold component_residuals in Hrs. rewrite Hi, Ho in Hrs. simpl in Hrs.
  destruct (cv_class c); simpl in Hrs; try congruence;
    repeat match type of Hrs with
           | context [inlet ?a ?b ?p] => destruct (inlet a b p); simpl in Hrs
           | context [outlet ?a ?b ?p] => destruct (outlet a b p); simpl in Hrs
           | context [when_set ?a ?b] => destruct (when_set a b); simpl in Hrs
           end;
    try discriminate; injection Hrs as Hrs; subst rs; simpl; auto.
Qed.

Lemma closer_passes c i o :
  In c (distinct [] (view_components v)) ->
  cv_class c = CycleCloser ->
  inlet v c "in1" = Some i -> outlet v c "out1" = Some o ->
  Qabs (pres (x o) - pres (x i)) <= eps /\
  Qabs (enth (x o) - enth (x i)) <= eps /\
  Qabs (mdot (x o) - mdot (x i)) <= eps.
Proof.
  intros Hin Hc Hi Ho.
  destruct (converged_component c Hin) as (rs & Hrs & Hall).
  unfold component_residuals in Hrs. rewrite Hc, Hi, Ho in Hrs. simpl in Hrs.
  injection Hrs as Hrs; subst rs.
  repeat split; apply Hall; simpl; auto.
Qed.
End Converged.

Section Cycle.
Import Core.
Variables a b c d e f g i j : Q.

Lemma rankine_components :
  distinct [] (view_components (rankine_network a b c d e f g i j))
  = [cc_view; tu_view i; mc_view; fp_view j; sg_view; cwso_view; cwsi_view].
Proof. reflexivity. Qed.

Lemma rankine_ports :
  let V := rankine_network a b c d e f g i j in
  inlet V cc_view "in1" = Some "0" /\ outlet V cc_view "out1" = Some "1" /\
  inlet V (tu_view i) "in1" = Some "1" /\ outlet V (tu_view i) "out1" = Some "2" /\
  inlet V mc_view "in1" = Some "2" /\ outlet V mc_view "out1" = Some "3" /\
  inlet V (fp_view j) "in1" = Some "3" /\ outlet V (fp_view j) "out1" = Some "4" /\
  inlet V sg_view "in1" = Some "4" /\ outlet V sg_view "out1" = Some "0".
Proof. repeat split; reflexivity. Qed.

Lemma rankine_derived (x : iterate) :
  let V := rankine_network a b c d e f g i j in
  derived_of V x "steam generator"
    = Some (mdot (x "4") * (enth (x "0") - enth (x "4"))) /\
  derived_of V x "steam turbine"
    = Some (mdot (x "1") * (enth (x "1") - enth (x "2"))) /\
  derived_of V x "feed pump"
    = Some (mdot (x "3") * (enth (x "4") - enth (x "3"))) /\
  derived_of V x "main condenser"
    = Some (mdot (x "2") * (enth (x "2") - enth (x "3"))).
Proof. repeat split; reflexivity. Qed.

Variables (fp : FluidProps) (eps : Q) (x : iterate).
Hypothesis Hconv : converged fp eps (rankine_network a b c d e f g i j) x = true.

Lemma mass_flow_steps :
  Qabs (mdot (x "1") - mdot (x "0")) <= eps /\
  Qabs (mdot (x "2") - mdot (x "1")) <= eps /\
  Qabs (mdot (x "3") - mdot (x "2")) <= eps /\
  Qabs (mdot (x "4") - mdot (x "3")) <= eps /\
  Qabs (mdot (x "0") - mdot (x "4")) <= eps.
Proof.
  pose proof rankine_components as Hcs.
  assert (Hflow : forall k p q,
             In k [cc_view; tu_view i; mc_view; fp_view j; sg_view] ->
             inlet (rankine_network a b c d e f g i j) k "in1" = Some p ->
             outlet (rankine_network a b c d e f g i j) k "out1" = Some q ->
             Qabs (mdot (x q) - mdot (x p)) <= eps).
  { intros k p q Hk Hp Hq.
    apply (through_flow fp eps _ x Hconv k p q); try assumption.
    - rewrite Hcs. simpl in *. intuition.
    - simpl in Hk. intuition; subst k; discriminate.
    - simpl in Hk. intuition; subst k; discriminate. }
  repeat split.
  - apply (Hflow cc_view); simpl; auto.
  - apply (Hflow (tu_view i)); simpl; auto.
  - apply (Hflow mc_view); simpl; auto.
  - apply (Hflow (fp_view j)); simpl; auto.
  - apply (Hflow sg_view); simpl; auto 6.
Qed.

Lemma closer_steps :
  Qabs (pres (x "1") - pres (x "0")) <= eps /\
  Qabs (enth (x "1") - enth (x "0")) <= eps /\
  Qabs (mdot (x "1") - mdot (x "0")) <= eps.
Proof.
  destruct rankine_ports as (I0 & O0 & _).
  eapply (closer_passes fp eps _ x Hconv cc_view);
    [ rewrite rankine_components; simpl; auto | reflexivity | exact I0 | exact O0 ].
Qed.

Lemma balance_bound :
  Qabs (mdot (x "4") * (enth (x "0") - enth (x "4"))
        + mdot (x "3") * (enth (x "4") - enth (x "3"))
        - (mdot (x "1") * (enth (x "1") - enth (x "2"))
           + mdot (x "2") * (enth (x "2") - enth (x "3"))))
  <= eps * (Qabs (mdot (x "4")) + 2 * Qabs (enth (x "1")) + Qabs (enth (x "2"))
            + Qabs (enth (x "3")) + Qabs (enth (x "4"))).
Proof.
  destruct mass_flow_steps as (M10 & M21 & M32 & M43 & M04).
  destruct closer_steps as (_ & H10 & _).
  set (m0 := mdot (x "0")) in *. set (m1 := mdot (x "1")) in *.
  set (m2 := mdot (x "2")) in *. set (m3 := mdot (x "3")) in *.
  set (m4 := mdot (x "4")) in *.
  set (h0 := enth (x "0")) in *. set (h1 := enth (x "1")) in *.
  set (h2 := enth (x "2")) in *. set (h3 := enth (x "3")) in *.
  set (h4 := enth (x "4")) in *.
  assert (T1 : Qabs (m4 * (h0 - h1)) <= eps * Qabs m4).
  { apply Qabs_scaled. rewrite Qabs_flip. exact H10. }
  assert (T2 : Qabs (h1 * (m4 - m1)) <= (eps + eps) * Qabs h1).
  { apply Qabs_scaled. rewrite Qabs_flip. apply Qabs_chain with m0; assumption. }
  assert (T3 : Qabs (h4 * (m3 - m4)) <= eps * Qabs h4).
  { apply Qabs_scaled. rewrite Qabs_flip. exact M43. }
  assert (T4 : Qabs (h3 * (m2 - m3)) <= eps * Qabs h3).
  { apply Qabs_scaled. rewrite Qabs_flip. exact M32. }
  assert (T5 : Qabs (h2 * (m1 - m2)) <= eps * Qabs h2).
  { apply Qabs_scaled. rewrite Qabs_flip. exact M21. }
  assert (E : m4 * (h0 - h4) + m3 * (h4 - h3) - (m1 * (h1 - h2) + m2 * (h2 - h3))
              == m4 * (h0 - h1) + h1 * (m4 - m1) + h4 * (m3 - m4) + h3 * (m2 - m3)
                 + h2 * (m1 - m2)) by ring.
  rewrite E.
  pose proof (Qabs_triangle (m4 * (h0 - h1) + h1 * (m4 - m1) + h4 * (m3 - m4)
                             + h3 * (m2 - m3)) (h2 * (m1 - m2))).
  pose proof (Qabs_triangle (m4 * (h0 - h1) + h1 * (m4 - m1) + h4 * (m3 - m4))
                            (h3 * (m2 - m3))).
  pose proof (Qabs_triangle (m4 * (h0 - h1) + h1 * (m4 - m1)) (h4 * (m3 - m4))).
  pose proof (Qabs_triangle (m4 * (h0 - h1)) (h1 * (m4 - m1))).
  lra.
Qed.

Lemma closer_energy_bound :
  Qabs (mdot (x "1") * enth (x "1") - mdot (x "0") * enth (x "0"))
  <= eps * (Qabs (enth (x "1")) + Qabs (mdot (x "0"))).
Proof.
  destruct closer_steps as (_ & H10 & M10).
  set (m0 := mdot (x "0")) in *. set (m1 := mdot (x "1")) in *.
  set (h0 := enth (x "0")) in *. set (h1 := enth (x "1")) in *.
  assert (T1 : Qabs (h1 * (m1 - m0)) <= eps * Qabs h1) by (apply Qabs_scaled; exact M10).
  assert (T2 : Qabs (m0 * (h1 - h0)) <= eps * Qabs m0) by (apply Qabs_scaled; exact H10).
  assert (E : m1 * h1 - m0 * h0 == h1 * (m1 - m0) + m0 * (h1 - h0)) by ring.
  rewrite E.
  pose proof (Qabs_triangle (h1 * (m1 - m0)) (m0 * (h1 - h0))).
  lra.
Qed.
End Cycle.

(** C8.  In the network [run_rankine] builds, the cycle closer sits between
    connection 0 (from the steam generator) and connection 1 (to the
    turbine), and at every converged state pressure, enthalpy and mass flow
    on connection 1 equal those on connection 0 within the tolerance; the
    enthalpy flow carried across differs by no more than the tolerance
    times the magnitudes involved. *)
Theorem cycle_closer_passes_through (fp : Core.FluidProps) (eps : Q)
    (T_steam p_steam m_steam p_cond T_cw_in T_cw_out p_cw eta_turbine eta_pump : Q)
    (h : heap) (v : net_view) (x : Core.iterate) :
  solver_input h T_steam p_steam m_steam p_cond T_cw_in T_cw_out p_cw
    eta_turbine eta_pump = Ok v ->
  Core.converged fp eps v x = true ->
  Core.inlet v cc_view "in1" = Some "0" /\
  Core.outlet v cc_view "out1" = Some "1" /\
  Qabs (Core.pres (x "1") - Core.pres (x "0")) <= eps /\
  Qabs (Core.enth (x "1") - Core.enth (x "0")) <= eps /\
  Qabs (Core.mdot (x "1") - Core.mdot (x "0")) <= eps /\
  Qabs (Core.mdot (x "1") * Core.enth (x "1") - Core.mdot (x "0") * Core.enth (x "0"))
  <= eps * (Qabs (Core.enth (x "1")) + Qabs (Core.mdot (x "0"))).
Proof.
  intros Hv Hconv. rewrite solver_input_any in Hv. injection Hv as Hv; subst v.
  destruct (rankine_ports T_steam p_steam m_steam p_cond T_cw_in T_cw_out p_cw
              eta_turbine eta_pump) as (I0 & O0 & _).
  destruct (closer_steps _ _ _ _ _ _ _ _ _ fp eps x Hconv) as (P & H & M).
  repeat split; try assumption.
  apply (closer_energy_bound _ _ _ _ _ _ _ _ _ fp eps x Hconv).
Qed.

Lemma cycle_closer_passes_through_design_point :
  solver_input [] 600 150 532 0.1 20 30 1.2 0.9 0.75 = Ok DesignPoint.network /\
  Core.converged DesignPoint.steam_table Core.tolerance DesignPoint.network
    DesignPoint.state = true /\
  Core.inlet DesignPoint.network cc_view "in1" = Some "0" /\
  Core.outlet DesignPoint.network cc_view "out1" = Some "1" /\
  Qabs (Core.pres (DesignPoint.state "1") - Core.pres (DesignPoint.state "0"))
  <= Core.tolerance /\
  Qabs (Core.enth (DesignPoint.state "1") - Core.enth (DesignPoint.state "0"))
  <= Core.tolerance /\
  Qabs (Core.mdot (DesignPoint.state "1") - Core.mdot (DesignPoint.state "0"))
  <= Core.tolerance /\
  Qabs (Core.mdot (DesignPoint.state "1") * Core.enth (DesignPoint.state "1")
        - Core.mdot (DesignPoint.state "0") * Core.enth (DesignPoint.state "0"))
  <= Core.tolerance * (Qabs (Core.enth (DesignPoint.state "1"))
                       + Qabs (Core.mdot (DesignPoint.state "0"))).
Proof.
  split; [vm_compute; reflexivity | ].
  split; [vm_compute; reflexivity | ].
  apply (cycle_closer_passes_through DesignPoint.steam_table Core.tolerance
           600 150 532 0.1 20 30 1.2 0.9 0.75 [] DesignPoint.network DesignPoint.state).
  - vm_compute. reflexivity.
  - vm_compute. reflexivity.
Defined.

(** C2, as the component equations give it.  At every converged state of
    the network [run_rankine] builds, the heat taken up in the steam
    generator plus the pump power equals the turbine power plus the heat
    given off in the condenser, up to the tolerance times the magnitudes
    of the mass flow and the enthalpies involved. *)
Theorem energy_balance_with_pump (fp : Core.FluidProps) (eps : Q)
    (T_steam p_steam m_steam p_cond T_cw_in T_cw_out p_cw eta_turbine eta_pump : Q)
    (h : heap) (v : net_view) (x : Core.iterate) :
  solver_input h T_steam p_steam m_steam p_cond T_cw_in T_cw_out p_cw
    eta_turbine eta_pump = Ok v ->
  Core.converged fp eps v x = true ->
  exists boiler turbine pump condenser : Q,
    Core.derived_of v x "steam generator" = Some boiler /\
    Core.derived_of v x "steam turbine" = Some turbine /\
    Core.derived_of v x "feed pump" = Some pump /\
    Core.derived_of v x "main condenser" = Some condenser /\
    Qabs (boiler + pump - (turbine + condenser))
    <= eps * (Qabs (Core.mdot (x "4")) + 2 * Qabs (Core.enth (x "1"))
              + Qabs (Core.enth (x "2")) + Qabs (Core.enth (x "3"))
              + Qabs (Core.enth (x "4"))).
Proof.
  intros Hv Hconv. rewrite solver_input_any in Hv. injection Hv as Hv; subst v.
  destruct (rankine_derived T_steam p_steam m_steam p_cond T_cw_in T_cw_out p_cw
              eta_turbine eta_pump x) as (D1 & D2 & D3 & D4).
  do 4 eexists.
  split; [exact D1 | ]. split; [exact D2 | ]. split; [exact D3 | ]. split; [exact D4 | ].
  apply (balance_bound _ _ _ _ _ _ _ _ _ fp eps x Hconv).
Qed.

Lemma energy_balance_with_pump_design_point :
  solver_input [] 600 150 532 0.1 20 30 1.2 0.9 0.75 = Ok DesignPoint.network /\
  Core.converged DesignPoint.steam_table Core.tolerance DesignPoint.network
    DesignPoint.state = true /\
  exists boiler turbine pump condenser : Q,
    Core.derived_of DesignPoint.network DesignPoint.state "steam generator"
    = Some boiler /\
    Core.derived_of DesignPoint.network DesignPoint.state "steam turbine"
    = Some turbine /\
    Core.derived_of DesignPoint.network DesignPoint.state "feed pump" = Some pump /\
    Core.derived_of DesignPoint.network DesignPoint.state "main condenser"
    = Some condenser /\
    Qabs (boiler + pump - (turbine + condenser))
    <= Core.tolerance
       * (Qabs (Core.mdot (DesignPoint.state "4"))
          + 2 * Qabs (Core.enth (DesignPoint.state "1"))
          + Qabs (Core.enth (DesignPoint.state "2"))
          + Qabs (Core.enth (DesignPoint.state "3"))
          + Qabs (Core.enth (DesignPoint.state "4"))).
Proof.
  split; [vm_compute; reflexivity | ].
  split; [vm_compute; reflexivity | ].
  apply (energy_balance_with_pump DesignPoint.steam_table Core.tolerance
           600 150 532 0.1 20 30 1.2 0.9 0.75 [] DesignPoint.network DesignPoint.state).
  - vm_compute. reflexivity.
  - vm_compute. reflexivity.
Defined.

(** C2, as stated, fails at the design point of rankine_model.py: the
    state is converged within the tolerance, yet the heat duty of the steam
    generator falls short of turbine power plus condenser heat duty by the
    pump power, 11916.8 kW. *)
Lemma boiler_balance_off_by_pump_power :
  Core.converged DesignPoint.steam_table Core.tolerance DesignPoint.network
    DesignPoint.state = true /\
  exists boiler turbine pump condenser : Q,
    Core.derived_of DesignPoint.network DesignPoint.state "steam generator"
    = Some boiler /\
    Core.derived_of DesignPoint.network DesignPoint.state "steam turbine"
    = Some turbine /\
    Core.derived_of DesignPoint.network DesignPoint.state "feed pump" = Some pump /\
    Core.derived_of DesignPoint.network DesignPoint.state "main condenser"
    = Some condenser /\
    pump == 11916.8 /\
    turbine + condenser - boiler == pump /\
    ~ Qabs (boiler - (turbine + condenser)) <= Core.tolerance.
Proof.
  split; [vm_compute; reflexivity | ].
  do 4 eexists.
  split; [vm_compute; reflexivity | ].
  split; [vm_compute; reflexivity | ].
  split; [vm_compute; reflexivity | ].
  split; [vm_compute; reflexivity | ].
  split; [reflexivity | ].
  split; [reflexivity | ].
  intros H. apply Qle_bool_iff in H. vm_compute in H. discriminate.
Qed.

(** ** The heap of a run *)

Section RunHeapFacts.
Variables a b c d e f g i j : Q.

Lemma setup_heap_ok : (rankine_setup a b c d e f g i j []).2 = setup_heap a b c d e f g i j.
Proof. vm_compute. reflexivity. Qed.

Lemma solved_heap_ok sol :
  (write_back sol 0%nat (setup_heap a b c d e f g i j)).2 = solved_heap a b c d e f g i j sol.
Proof.
  lazy -[write_vals gmap_lookup comp_vals conn_vals default sol_converged].
  reflexivity.
Qed.

Lemma run_rankine_heap solve :
  run_rankine solve a b c d e f g i j []
  = match solve "design" (rankine_network a b c d e f g i j) with
    | Ok sol => (Ok first_refs, solved_heap a b c d e f g i j sol)
    | Raise x => (Raise x, setup_heap a b c d e f g i j)
    end.
Proof.
  rewrite run_rankine_nil, setup_heap_ok.
  destruct (solve "design" _) as [sol|x]; [ | reflexivity].
  rewrite solved_heap_ok. reflexivity.
Qed.
End RunHeapFacts.

Lemma after_after sv d : after sv (after sv d) = after sv d.
Proof. destruct sv; reflexivity. Qed.

Lemma solved_lookup vals label attrs name d :
  attrs !! name = Some d ->
  solved vals label attrs !! name = Some (after (solution_val vals label name) d).
Proof.
  intros H. unfold solved, write_vals, solution_val.
  rewrite lookup_merge, H.
  destruct (vals !! label) as [m|]; simpl.
  - destruct (m !! name); destruct d; reflexivity.
  - rewrite lookup_empty. destruct d; reflexivity.
Qed.


Lemma written_lookup sol times label attrs name d :
  attrs !! name = Some d ->
  written sol (S times) label attrs !! name
  = Some (after (solution_val (comp_vals sol) label name) d).
Proof.
  intros H. induction times as [|n IH].
  - simpl. apply solved_lookup, H.
  - change (written sol (S (S n)) label attrs)
      with (solved (comp_vals sol) label (written sol (S n) label attrs)).
    rewrite (solved_lookup _ _ _ _ _ IH), after_after. reflexivity.
Qed.


(** Reading a container of a component, or of a connection, in a heap
    where the object stands as written. *)
Lemma attr_val_component (h : heap) r cls label attrs name dd :
  h !! r = Some (Component cls label attrs) -> attrs !! name = Some dd ->
  attr_val r name h = (Ok (val dd), h).
Proof. intros Hr Ha. unfold attr_val, bind, deref. rewrite Hr, Ha. reflexivity. Qed.

Lemma attr_val_connection (h : heap) r s sid t tid label attrs fl name dd :
  h !! r = Some (Connection s sid t tid label attrs fl) -> attrs !! name = Some dd ->
  attr_val r name h = (Ok (val dd), h).
Proof. intros Hr Ha. unfold attr_val, bind, deref. rewrite Hr, Ha. reflexivity. Qed.

Section Reads.
Variables a b c d e f g i j : Q.
Variable sol : solution.
Abbreviation Hread := (solved_heap a b c d e f g i j sol).

Lemma read_sg_Q :
  attr_val 2%nat "Q" Hread = (Ok (solution_val (comp_vals sol) "steam generator" "Q"), Hread).
Proof.
  erewrite attr_val_component;
    [ | reflexivity | apply written_lookup; reflexivity ].
  destruct (solution_val _ _ _); reflexivity.
Qed.

Lemma read_tu_P :
  attr_val 4%nat "P" Hread = (Ok (solution_val (comp_vals sol) "steam turbine" "P"), Hread).
Proof.
  erewrite attr_val_component;
    [ | reflexivity | apply written_lookup; reflexivity ].
  destruct (solution_val _ _ _); reflexivity.
Qed.

Lemma read_fp_P :
  attr_val 5%nat "P" Hread = (Ok (solution_val (comp_vals sol) "feed pump" "P"), Hread).
Proof.
  erewrite attr_val_component;
    [ | reflexivity | apply written_lookup; reflexivity ].
  destruct (solution_val _ _ _); reflexivity.
Qed.

Lemma read_mc_Q :
  attr_val 3%nat "Q" Hread = (Ok (solution_val (comp_vals sol) "main condenser" "Q"), Hread).
Proof.
  erewrite attr_val_component;
    [ | reflexivity | apply written_lookup; reflexivity ].
  destruct (solution_val _ _ _); reflexivity.
Qed.

Lemma read_c11_m :
  attr_val 13%nat "m" Hread = (Ok (solution_val (conn_vals sol) "11" "m"), Hread).
Proof.
  erewrite attr_val_connection;
    [ | reflexivity | apply solved_lookup; reflexivity ].
  destruct (solution_val _ _ _); reflexivity.
Qed.
End Reads.


(** ** The page, from the solver's answer *)

Lemma bind_ok {A B} (c : M A) (k : A -> M B) h a h' :
  c h = (Ok a, h') -> bind c k h = k a h'.
Proof. intros H. unfold bind. rewrite H. reflexivity. Qed.

Lemma bind_raise {A B} (c : M A) (k : A -> M B) h x h' :
  c h = (Raise x, h') -> bind c k h = (Raise x, h').
Proof. intros H. unfold bind. rewrite H. reflexivity. Qed.

Lemma divide_ok a b h : ~ b == 0 -> divide a b h = (Ok (a / b), h).
Proof.
  intros Hb. unfold divide, pydiv.
  destruct (Qeq_bool b 0) eqn:E; [ | reflexivity].
  apply Qeq_bool_iff in E. contradiction.
Qed.

Lemma divide_zero a b h : b == 0 -> divide a b h = (Raise ZeroDivisionError, h).
Proof.
  intros Hb. unfold divide, pydiv.
  apply Qeq_bool_iff in Hb. rewrite Hb. reflexivity.
Qed.

Lemma thousand_nonzero : ~ 1000 == 0.
Proof. discriminate. Qed.

Lemma million_nonzero : ~ 1000000 == 0.
Proof. discriminate. Qed.

Lemma number_read_ok (h : heap) r name v q :
  attr_val r name h = (Ok v, h) -> v = Some q ->
  (x <- attr_val r name ;; number x) h = (Ok q, h).
Proof. intros Hr ->. erewrite bind_ok; [ | exact Hr]. reflexivity. Qed.

Lemma number_read_none (h : heap) r name v :
  attr_val r name h = (Ok v, h) -> v = None ->
  (x <- attr_val r name ;; number x) h = (Raise TypeError, h).
Proof. intros Hr ->. erewrite bind_ok; [ | exact Hr]. reflexivity. Qed.

Section Page.
Variable inp : Inputs.
Variable sol : solution.
Abbreviation Hsol :=
  (solved_heap (T_steam inp) (p_steam inp) (m_steam inp) (p_cond inp) (T_cw_in inp)
     (T_cw_out inp) (p_cw inp) (eta_turbine inp) (eta_pump inp) sol).
Abbreviation sgQ := (solution_val (comp_vals sol) "steam generator" "Q").
Abbreviation tuP := (solution_val (comp_vals sol) "steam turbine" "P").
Abbreviation fpP := (solution_val (comp_vals sol) "feed pump" "P").
Abbreviation mcQ := (solution_val (comp_vals sol) "main condenser" "Q").
Abbreviation c11m := (solution_val (conn_vals sol) "11" "m").

Lemma kpis_ok Qsg Ptu Pfp :
  sgQ = Some Qsg -> tuP = Some Ptu -> fpP = Some Pfp ->
  ~ Qsg == 0 -> ~ coal_cv inp * boiler_eff inp == 0 ->
  compute_kpis inp first_refs.1.2 first_refs.2 Hsol
  = (Ok {| boiler_heat_duty := Qsg / 1000;
           turbine_power := Qabs (Ptu / 1000);
           pump_power := Pfp / 1000;
           net_power_output := Qabs (Ptu / 1000) - Pfp / 1000;
           thermal_efficiency := (Qabs (Ptu / 1000) - Pfp / 1000) * 1000 / Qsg * 100;
           coal_flow := Qsg / 1000 / (coal_cv inp * boiler_eff inp);
           cw_flow := match c11m with Some m => m | None => 0 end |}, Hsol).
Proof.
  intros HQ HPt HPp Hnz Hden. unfold compute_kpis.
  erewrite bind_ok; [ | reflexivity].
  erewrite bind_ok; [ | eapply number_read_ok; [apply read_sg_Q | exact HQ]].
  erewrite bind_ok; [ | apply divide_ok, thousand_nonzero].
  erewrite bind_ok; [ | reflexivity].
  erewrite bind_ok; [ | eapply number_read_ok; [apply read_tu_P | exact HPt]].
  erewrite bind_ok; [ | apply divide_ok, thousand_nonzero].
  erewrite bind_ok; [ | reflexivity].
  erewrite bind_ok; [ | eapply number_read_ok; [apply read_fp_P | exact HPp]].
  erewrite bind_ok; [ | apply divide_ok, thousand_nonzero].
  erewrite bind_ok; [ | reflexivity].
  erewrite bind_ok; [ | eapply number_read_ok; [apply read_sg_Q | exact HQ]].
  erewrite bind_ok; [ | apply divide_ok, Hnz].
  erewrite bind_ok; [ | apply divide_ok, Hden].
  erewrite bind_ok; [ | reflexivity].
  erewrite bind_ok; [ | apply read_c11_m].
  reflexivity.
Qed.

Lemma kpis_zero_duty Qsg Ptu Pfp :
  sgQ = Some Qsg -> tuP = Some Ptu -> fpP = Some Pfp -> Qsg == 0 ->
  compute_kpis inp first_refs.1.2 first_refs.2 Hsol = (Raise ZeroDivisionError, Hsol).
Proof.
  intros HQ HPt HPp Hz. unfold compute_kpis.
  erewrite bind_ok; [ | reflexivity].
  erewrite bind_ok; [ | eapply number_read_ok; [apply read_sg_Q | exact HQ]].
  erewrite bind_ok; [ | apply divide_ok, thousand_nonzero].
  erewrite bind_ok; [ | reflexivity].
  erewrite bind_ok; [ | eapply number_read_ok; [apply read_tu_P | exact HPt]].
  erewrite bind_ok; [ | apply divide_ok, thousand_nonzero].
  erewrite bind_ok; [ | reflexivity].
  erewrite bind_ok; [ | eapply number_read_ok; [apply read_fp_P | exact HPp]].
  erewrite bind_ok; [ | apply divide_ok, thousand_nonzero].
  erewrite bind_ok; [ | reflexivity].
  erewrite bind_ok; [ | eapply number_read_ok; [apply read_sg_Q | exact HQ]].
  erewrite bind_raise; [ reflexivity | apply divide_zero, Hz].
Qed.

Lemma kpis_missing :
  sgQ = None \/ tuP = None \/ fpP = None ->
  compute_kpis inp first_refs.1.2 first_refs.2 Hsol = (Raise TypeError, Hsol).
Proof.
  intros Hmiss. unfold compute_kpis.
  erewrite bind_ok; [ | reflexivity].
  destruct sgQ as [Qsg|] eqn:HQ.
  2:{ erewrite bind_raise; [reflexivity | ].
      eapply number_read_none; [apply read_sg_Q | exact HQ]. }
  erewrite bind_ok; [ | eapply number_read_ok; [apply read_sg_Q | exact HQ]].
  erewrite bind_ok; [ | apply divide_ok, thousand_nonzero].
  erewrite bind_ok; [ | reflexivity].
  destruct tuP as [Ptu|] eqn:HPt.
  2:{ erewrite bind_raise; [reflexivity | ].
      eapply number_read_none; [apply read_tu_P | exact HPt]. }
  erewrite bind_ok; [ | eapply number_read_ok; [apply read_tu_P | exact HPt]].
  erewrite bind_ok; [ | apply divide_ok, thousand_nonzero].
  erewrite bind_ok; [ | reflexivity].
  destruct fpP as [Pfp|] eqn:HPp.
  2:{ erewrite bind_raise; [reflexivity | ].
      eapply number_read_none; [apply read_fp_P | exact HPp]. }
  destruct Hmiss as [H|[H|H]]; discriminate.
Qed.

Lemma sankey_ok Qsg Ptu Pfp Qmc :
  sgQ = Some Qsg -> tuP = Some Ptu -> fpP = Some Pfp -> mcQ = Some Qmc ->
  ~ boiler_eff inp == 0 ->
  compute_sankey inp first_refs.2 Hsol
  = (Ok {| boiler_heat_mw := Qsg / 1000000;
           turbine_power_mw := Qabs (Ptu / 1000000);
           pump_power_mw := Pfp / 1000000;
           condenser_heat_mw := Qabs (Qmc / 1000000);
           net_power_mw := Qabs (Ptu / 1000000) - Pfp / 1000000;
           coal_input_mw := Qsg / 1000000 / boiler_eff inp;
           boiler_loss_mw := Qsg / 1000000 / boiler_eff inp - Qsg / 1000000 |}, Hsol).
Proof.
  intros HQ HPt HPp HQm Hden. unfold compute_sankey.
  erewrite bind_ok; [ | reflexivity].
  erewrite bind_ok; [ | eapply number_read_ok; [apply read_sg_Q | exact HQ]].
  erewrite bind_ok; [ | apply divide_ok, million_nonzero].
  erewrite bind_ok; [ | reflexivity].
  erewrite bind_ok; [ | eapply number_read_ok; [apply read_tu_P | exact HPt]].
  erewrite bind_ok; [ | apply divide_ok, million_nonzero].
  erewrite bind_ok; [ | reflexivity].
  erewrite bind_ok; [ | eapply number_read_ok; [apply read_fp_P | exact HPp]].
  erewrite bind_ok; [ | apply divide_ok, million_nonzero].
  erewrite bind_ok; [ | reflexivity].
  erewrite bind_ok; [ | eapply number_read_ok; [apply read_mc_Q | exact HQm]].
  erewrite bind_ok; [ | apply divide_ok, million_nonzero].
  erewrite bind_ok; [ | apply divide_ok, Hden].
  reflexivity.
Qed.

Lemma sankey_missing Qsg Ptu Pfp :
  sgQ = Some Qsg -> tuP = Some Ptu -> fpP = Some Pfp -> mcQ = None ->
  compute_sankey inp first_refs.2 Hsol = (Raise TypeError, Hsol).
Proof.
  intros HQ HPt HPp HQm. unfold compute_sankey.
  erewrite bind_ok; [ | reflexivity].
  erewrite bind_ok; [ | eapply number_read_ok; [apply read_sg_Q | exact HQ]].
  erewrite bind_ok; [ | apply divide_ok, million_nonzero].
  erewrite bind_ok; [ | reflexivity].
  erewrite bind_ok; [ | eapply number_read_ok; [apply read_tu_P | exact HPt]].
  erewrite bind_ok; [ | apply divide_ok, million_nonzero].
  erewrite bind_ok; [ | reflexivity].
  erewrite bind_ok; [ | eapply number_read_ok; [apply read_fp_P | exact HPp]].
  erewrite bind_ok; [ | apply divide_ok, million_nonzero].
  erewrite bind_ok; [ | reflexivity].
  erewrite bind_raise; [reflexivity | ].
  eapply number_read_none; [apply read_mc_Q | exact HQm].
Qed.
End Page.


Lemma app_on_solution solve u sol :
  solve "design" (network_of (sidebar u)) = Ok sol ->
  app solve u
  = match (k <- compute_kpis (sidebar u) first_refs.1.2 first_refs.2 ;;
           s <- compute_sankey (sidebar u) first_refs.2 ;;
           ret (k, s))
          (solved_heap (T_steam (sidebar u)) (p_steam (sidebar u)) (m_steam (sidebar u))
             (p_cond (sidebar u)) (T_cw_in (sidebar u)) (T_cw_out (sidebar u))
             (p_cw (sidebar u)) (eta_turbine (sidebar u)) (eta_pump (sidebar u)) sol) with
    | (Ok (k, s), _) => Results k s
    | (Raise e, _) => Traceback e
    end.
Proof.
  intros Hs. rewrite app_unfold, Hs. cbv zeta.
  rewrite setup_heap_ok, solved_heap_ok. reflexivity.
Qed.

Lemma reachable_denominators u :
  reachable u = true ->
  ~ coal_cv (sidebar u) * boiler_eff (sidebar u) == 0 /\ ~ boiler_eff (sidebar u) == 0.
Proof.
  intros H. destruct (reachable_coal u H) as [Hc Hb]. split; intros E.
  - assert (0 < coal_cv (sidebar u) * boiler_eff (sidebar u)) by nra. lra.
  - lra.
Qed.

(** The page for every answer of the solver. *)
Lemma app_cases solve u sol :
  reachable u = true ->
  solve "design" (network_of (sidebar u)) = Ok sol ->
  (exists Qsg Ptu Pfp Qmc k s,
      solution_val (comp_vals sol) "steam generator" "Q" = Some Qsg /\
      solution_val (comp_vals sol) "steam turbine" "P" = Some Ptu /\
      solution_val (comp_vals sol) "feed pump" "P" = Some Pfp /\
      solution_val (comp_vals sol) "main condenser" "Q" = Some Qmc /\
      ~ Qsg == 0 /\
      app solve u = Results k s /\
      k = {| boiler_heat_duty := Qsg / 1000;
             turbine_power := Qabs (Ptu / 1000);
             pump_power := Pfp / 1000;
             net_power_output := Qabs (Ptu / 1000) - Pfp / 1000;
             thermal_efficiency := (Qabs (Ptu / 1000) - Pfp / 1000) * 1000 / Qsg * 100;
             coal_flow := Qsg / 1000 / (coal_cv (sidebar u) * boiler_eff (sidebar u));
             cw_flow := match solution_val (conn_vals sol) "11" "m" with
                        | Some m => m
                        | None => 0
                        end |} /\
      s = {| boiler_heat_mw := Qsg / 1000000;
             turbine_power_mw := Qabs (Ptu / 1000000);
             pump_power_mw := Pfp / 1000000;
             condenser_heat_mw := Qabs (Qmc / 1000000);
             net_power_mw := Qabs (Ptu / 1000000) - Pfp / 1000000;
             coal_input_mw := Qsg / 1000000 / boiler_eff (sidebar u);
             boiler_loss_mw := Qsg / 1000000 / boiler_eff (sidebar u) - Qsg / 1000000 |})
  \/ (exists e, app solve u = Traceback e /\
        (solution_val (comp_vals sol) "steam generator" "Q" = None \/
         solution_val (comp_vals sol) "steam turbine" "P" = None \/
         solution_val (comp_vals sol) "feed pump" "P" = None \/
         solution_val (comp_vals sol) "main condenser" "Q" = None \/
         exists Qsg, solution_val (comp_vals sol) "steam generator" "Q" = Some Qsg
                     /\ Qsg == 0)).
Proof.
  intros Hu Hs.
  destruct (reachable_denominators u Hu) as [Hden Heff].
  destruct (solution_val (comp_vals sol) "steam generator" "Q") as [Qsg|] eqn:HQ.
  2:{ right. exists TypeError. split; [ | auto].
      rewrite (app_on_solution solve u sol Hs).
      erewrite bind_raise; [reflexivity | ].
      apply (kpis_missing (sidebar u) sol). auto. }
  destruct (solution_val (comp_vals sol) "steam turbine" "P") as [Ptu|] eqn:HPt.
  2:{ right. exists TypeError. split; [ | auto].
      rewrite (app_on_solution solve u sol Hs).
      erewrite bind_raise; [reflexivity | ].
      apply (kpis_missing (sidebar u) sol). auto. }
  destruct (solution_val (comp_vals sol) "feed pump" "P") as [Pfp|] eqn:HPp.
  2:{ right. exists TypeError. split; [ | auto].
      rewrite (app_on_solution solve u sol Hs).
      erewrite bind_raise; [reflexivity | ].
      apply (kpis_missing (sidebar u) sol). auto. }
  destruct (Qeq_dec Qsg 0) as [Hz|Hnz].
  { right. exists ZeroDivisionError. split.
    - rewrite (app_on_solution solve u sol Hs).
      erewrite bind_raise; [reflexivity | ].
      apply (kpis_zero_duty (sidebar u) sol Qsg Ptu Pfp); assumption.
    - do 4 right. exists Qsg. auto. }
  destruct (solution_val (comp_vals sol) "main condenser" "Q") as [Qmc|] eqn:HQm.
  - left. exists Qsg, Ptu, Pfp, Qmc. do 2 eexists.
    repeat (split; [reflexivity || assumption | ]).
    split; [ | split; reflexivity].
    rewrite (app_on_solution solve u sol Hs).
    erewrite bind_ok; [ | apply (kpis_ok (sidebar u) sol Qsg Ptu Pfp); assumption].
    erewrite bind_ok; [ | apply (sankey_ok (sidebar u) sol Qsg Ptu Pfp Qmc); assumption].
    reflexivity.
  - right. exists TypeError. split; [ | auto 6].
    rewrite (app_on_solution solve u sol Hs).
    erewrite bind_ok; [ | apply (kpis_ok (sidebar u) sol Qsg Ptu Pfp); assumption].
    erewrite bind_raise; [reflexivity | ].
    apply (sankey_missing (sidebar u) sol Qsg Ptu Pfp); assumption.
Qed.

(** The cards and the diagram, from the numbers the solver left in the
    four components and on the cooling-water inlet. *)
Theorem page_shows_solution solve u sol Qsg Ptu Pfp Qmc :
  reachable u = true ->
  solve "design" (network_of (sidebar u)) = Ok sol ->
  solution_val (comp_vals sol) "steam generator" "Q" = Some Qsg ->
  solution_val (comp_vals sol) "steam turbine" "P" = Some Ptu ->
  solution_val (comp_vals sol) "feed pump" "P" = Some Pfp ->
  solution_val (comp_vals sol) "main condenser" "Q" = Some Qmc ->
  ~ Qsg == 0 ->
  app solve u
  = Results
      {| boiler_heat_duty := Qsg / 1000;
         turbine_power := Qabs (Ptu / 1000);
         pump_power := Pfp / 1000;
         net_power_output := Qabs (Ptu / 1000) - Pfp / 1000;
         thermal_efficiency := (Qabs (Ptu / 1000) - Pfp / 1000) * 1000 / Qsg * 100;
         coal_flow := Qsg / 1000 / (coal_cv (sidebar u) * boiler_eff (sidebar u));
         cw_flow := match solution_val (conn_vals sol) "11" "m" with
                    | Some m => m
                    | None => 0
                    end |}
      {| boiler_heat_mw := Qsg / 1000000;
         turbine_power_mw := Qabs (Ptu / 1000000);
         pump_power_mw := Pfp / 1000000;
         condenser_heat_mw := Qabs (Qmc / 1000000);
         net_power_mw := Qabs (Ptu / 1000000) - Pfp / 1000000;
         coal_input_mw := Qsg / 1000000 / boiler_eff (sidebar u);
         boiler_loss_mw := Qsg / 1000000 / boiler_eff (sidebar u) - Qsg / 1000000 |}.
Proof.
  intros Hu Hs HQ HPt HPp HQm Hnz.
  destruct (reachable_denominators u Hu) as [Hden Heff].
  rewrite (app_on_solution solve u sol Hs).
  erewrite bind_ok; [ | apply (kpis_ok (sidebar u) sol Qsg Ptu Pfp); assumption].
  erewrite bind_ok; [ | apply (sankey_ok (sidebar u) sol Qsg Ptu Pfp Qmc); assumption].
  reflexivity.
Qed.

(** A heat duty of zero in the steam generator ends the script in a
    ZeroDivisionError at line 100. *)
Theorem zero_heat_duty_ends_in_traceback solve u sol Qsg Ptu Pfp :
  solve "design" (network_of (sidebar u)) = Ok sol ->
  solution_val (comp_vals sol) "steam generator" "Q" = Some Qsg ->
  solution_val (comp_vals sol) "steam turbine" "P" = Some Ptu ->
  solution_val (comp_vals sol) "feed pump" "P" = Some Pfp ->
  Qsg == 0 ->
  app solve u = Traceback ZeroDivisionError.
Proof.
  intros Hs HQ HPt HPp Hz. rewrite (app_on_solution solve u sol Hs).
  erewrite bind_raise; [reflexivity | ].
  apply (kpis_zero_duty (sidebar u) sol Qsg Ptu Pfp); assumption.
Qed.



Lemma page_shows_solution_stalled :
  app DesignPoint.stalled untouched
  = Results
      {| boiler_heat_duty := 1792000000 / 1000;
         turbine_power := Qabs (-702000000 / 1000);
         pump_power := 12000000 / 1000;
         net_power_output := Qabs (-702000000 / 1000) - 12000000 / 1000;
         thermal_efficiency :=
           (Qabs (-702000000 / 1000) - 12000000 / 1000) * 1000 / 1792000000 * 100;
         coal_flow := 1792000000 / 1000
                      / (coal_cv (sidebar untouched) * boiler_eff (sidebar untouched));
         cw_flow := 26000 |}
      {| boiler_heat_mw := 1792000000 / 1000000;
         turbine_power_mw := Qabs (-702000000 / 1000000);
         pump_power_mw := 12000000 / 1000000;
         condenser_heat_mw := Qabs (-1101000000 / 1000000);
         net_power_mw := Qabs (-702000000 / 1000000) - 12000000 / 1000000;
         coal_input_mw := 1792000000 / 1000000 / boiler_eff (sidebar untouched);
         boiler_loss_mw := 1792000000 / 1000000 / boiler_eff (sidebar untouched)
                           - 1792000000 / 1000000 |}.
Proof.
  apply (page_shows_solution DesignPoint.stalled untouched stalled_answer
           1792000000 (-702000000) 12000000 (-1101000000));
    [ reflexivity | reflexivity | reflexivity | reflexivity | reflexivity
    | reflexivity | discriminate ].
Defined.

Lemma zero_heat_duty_ends_in_traceback_cold :
  app cold untouched = Traceback ZeroDivisionError.
Proof.
  apply (zero_heat_duty_ends_in_traceback cold untouched cold_answer 0 (-702000000) 12000000);
    reflexivity.
Defined.








(** ** The tables *)

Lemma mapM_ok {A B} (f : A -> M B) h xs ys :
  Forall2 (fun x y => f x h = (Ok y, h)) xs ys -> mapM f xs h = (Ok ys, h).
Proof.
  induction 1 as [|x y xs ys Hx _ IH]; [reflexivity | ].
  simpl. erewrite bind_ok; [ | exact Hx].
  erewrite bind_ok; [ | exact IH]. reflexivity.
Qed.

Lemma val_after sv dd : val (after sv dd) = shown sv (val dd).
Proof. destruct sv; reflexivity. Qed.

Lemma shown_None sv : shown sv None = sv.
Proof. destruct sv; reflexivity. Qed.

Section Tables.
Variables a b c d e f g i j : Q.
Variable sol : solution.
Abbreviation Hrun := (solved_heap a b c d e f g i j sol).
Abbreviation cell := (fun label name => solution_val (conn_vals sol) label name).


End Tables.


Section ComponentTable.
Variables a b c d e f g i j : Q.
Variable sol : solution.
Abbreviation Hc := (solved_heap a b c d e f g i j sol).






End ComponentTable.




Lemma captions_solved a b c d e f g i j sol :
  captioned_connections first_refs.1.2 (solved_heap a b c d e f g i j sol)
  = (Ok [ ("Boiler Inlet (c4)", "3"); ("Boiler Outlet (c1)", "0");
          ("Turbine Exhaust (c2)", "1"); ("Condenser Outlet (c3)", "2");
          ("CW Inlet (c11)", "11"); ("CW Outlet (c12)", "12") ],
     solved_heap a b c d e f g i j sol).
Proof.
  unfold captioned_connections.
  erewrite bind_ok; [ | reflexivity].
  apply mapM_ok.
  repeat (constructor; [reflexivity | ]). constructor.
Qed.

(** The captions of the state-point table name other connections than
    the rows read: "Boiler Inlet (c4)" stands over the connection
    labelled 3, "Boiler Outlet (c1)" over 0, "Turbine Exhaust (c2)" over 1
    and "Condenser Outlet (c3)" over 2; only the two cooling-water rows
    read the connection their caption names. *)
Theorem captions_name_other_connections solve a b c d e f g i j sol :
  solve "design" (rankine_network a b c d e f g i j) = Ok sol ->
  exists nw conns comps h,
    run_rankine solve a b c d e f g i j [] = (Ok (nw, conns, comps), h) /\
    captioned_connections conns h
    = (Ok [ ("Boiler Inlet (c4)", "3"); ("Boiler Outlet (c1)", "0");
            ("Turbine Exhaust (c2)", "1"); ("Condenser Outlet (c3)", "2");
            ("CW Inlet (c11)", "11"); ("CW Outlet (c12)", "12") ], h).
Proof.
  intros Hs. rewrite run_rankine_heap, Hs.
  eexists _, _, _, _. split; [reflexivity | ].
  apply captions_solved.
Qed.

Lemma captions_name_other_connections_stalled :
  exists nw conns comps h,
    run_rankine DesignPoint.stalled 600 150 532 0.1 20 30 1.2 0.9 0.75 []
    = (Ok (nw, conns, comps), h) /\
    captioned_connections conns h
    = (Ok [ ("Boiler Inlet (c4)", "3"); ("Boiler Outlet (c1)", "0");
            ("Turbine Exhaust (c2)", "1"); ("Condenser Outlet (c3)", "2");
            ("CW Inlet (c11)", "11"); ("CW Outlet (c12)", "12") ], h).
Proof.
  apply (captions_name_other_connections DesignPoint.stalled
           600 150 532 0.1 20 30 1.2 0.9 0.75 stalled_answer).
  reflexivity.
Defined.




(** ** The sidebar, all widgets *)

Lemma slider_bounds lo hi value step sel lo' hi' :
  slider_offers lo hi value sel = true ->
  lo' <= Qmin value (Qmin lo hi) -> Qmax value (Qmax (Qmin lo hi) hi) <= hi' ->
  lo' <= slider lo hi value step sel <= hi'.
Proof.
  intros H Hlo Hhi. apply (slider_within lo hi value step) in H as [H1 H2].
  split; [eapply Qle_trans; eassumption | eapply Qle_trans; eassumption].
Qed.

Lemma reachable_boiler_eff u : reachable u = true ->
  0.5 <= boiler_eff (sidebar u) <= 1.
Proof.
  intros H. split_reachable H.
  match goal with
  | Hs : slider_offers 50 100 85 _ = true |- _ =>
      apply (slider_bounds 50 100 85 1 _ 50 100) in Hs as [Hlo Hhi];
        [ | discriminate | discriminate]
  end.
  cbn [boiler_eff sidebar].
  split; [apply Qle_shift_div_l | apply Qle_shift_div_r]; try reflexivity; lra.
Qed.

(** Every value the script reads from the sidebar lies in the range its
    widget is given, for every selection the widgets offer; the outlet
    temperature, whose lower bound moves with the inlet temperature, lies
    between 6 and 60. *)
Theorem sidebar_within_ranges u :
  reachable u = true ->
  400 <= T_steam (sidebar u) <= 650 /\
  50 <= p_steam (sidebar u) <= 300 /\
  400 <= m_steam (sidebar u) <= 800 /\
  0.01 <= p_cond (sidebar u) <= 2 /\
  5 <= T_cw_in (sidebar u) <= 40 /\
  6 <= T_cw_out (sidebar u) <= 60 /\
  0 <= p_cw (sidebar u) <= 10 /\
  0.7 <= eta_turbine (sidebar u) <= 1 /\
  0.5 <= eta_pump (sidebar u) <= 1 /\
  1000 <= coal_cv (sidebar u) <= 40000 /\
  0.5 <= boiler_eff (sidebar u) <= 1.
Proof.
  intros H. pose proof (reachable_boiler_eff u H) as Heff.
  split_reachable H.
  assert (Hin : 5 <= T_cw_in (sidebar u) <= 40).
  { apply (slider_bounds 5 40 20 1); [assumption | discriminate | discriminate]. }
  repeat apply conj; try apply Heff; try apply Hin.
  all: try (apply (slider_bounds _ _ _ _ _ _ _ ltac:(eassumption)); discriminate).
  all: try (eapply number_input_within; eassumption).
  - match goal with
    | Hs : slider_offers (_ + 1) 60 30 _ = true |- _ =>
        apply (slider_within _ 60 30 1) in Hs as [Hlo _]
    end.
    eapply Qle_trans; [ | exact Hlo].
    apply Q.min_glb; [discriminate | ].
    apply Q.min_glb; [lra | discriminate].
  - match goal with
    | Hs : slider_offers (_ + 1) 60 30 _ = true |- _ =>
        apply (slider_within _ 60 30 1) in Hs as [_ Hhi]
    end.
    eapply Qle_trans; [exact Hhi | ].
    apply Q.max_lub; [discriminate | ].
    apply Q.max_lub; [apply Q.le_min_r | apply Qle_refl].
Qed.

Lemma sidebar_within_ranges_untouched :
  400 <= T_steam (sidebar untouched) <= 650 /\
  50 <= p_steam (sidebar untouched) <= 300 /\
  400 <= m_steam (sidebar untouched) <= 800 /\
  0.01 <= p_cond (sidebar untouched) <= 2 /\
  5 <= T_cw_in (sidebar untouched) <= 40 /\
  6 <= T_cw_out (sidebar untouched) <= 60 /\
  0 <= p_cw (sidebar untouched) <= 10 /\
  0.7 <= eta_turbine (sidebar untouched) <= 1 /\
  0.5 <= eta_pump (sidebar untouched) <= 1 /\
  1000 <= coal_cv (sidebar untouched) <= 40000 /\
  0.5 <= boiler_eff (sidebar untouched) <= 1.
Proof. apply (sidebar_within_ranges untouched). reflexivity. Defined.

Lemma cool_inlet_keeps_order_untouched :
  T_cw_in (sidebar untouched) + 1 <= T_cw_out (sidebar untouched).
Proof. apply (cool_inlet_keeps_order untouched); [reflexivity | discriminate]. Defined.

(** ** The network that reaches the solver *)

(** A solver that answers in design mode only serves [run_rankine] as
    well as the solver itself. *)
Lemma run_rankine_uses_solver_once_design_only :
  run_rankine DesignPoint.stalled 600 150 532 0.1 20 30 1.2 0.9 0.75 []
  = run_rankine (design_only DesignPoint.stalled) 600 150 532 0.1 20 30 1.2 0.9 0.75 [].
Proof.
  apply (run_rankine_uses_solver_once DesignPoint.stalled (design_only DesignPoint.stalled)).
  reflexivity.
Defined.


(** What is fixed in the network handed to the solver is what lines 68-78
    set and nothing else: three values at connection 1, the pressure at
    connection 2, temperature and pressure at 11, the temperature at 12,
    nothing at connections 3, 4 and 0; the two isentropic efficiencies and
    the constants 1, 0.98 and 0.9 of the pressure ratios, and neither a
    power nor a heat duty. *)
Theorem nothing_else_fixed a b c d e f g i j (h : heap) :
  exists v,
    solver_input h a b c d e f g i j = Ok v /\
    fixed_on_connections v
    = [ ("1", [("m", c); ("T", a); ("p", b)]); ("2", [("p", d)]);
        ("3", []); ("4", []); ("0", []);
        ("11", [("T", e); ("p", g)]); ("12", [("T", f)]) ] /\
    fixed_on_components v
    = [ ("cycle closer", []); ("steam turbine", [("eta_s", i)]);
        ("main condenser", [("pr1", 1); ("pr2", 0.98)]);
        ("feed pump", [("eta_s", j)]); ("steam generator", [("pr", 0.9)]);
        ("cooling water source", []); ("cooling water sink", []) ].
Proof.
  rewrite solver_input_any. eexists. split; [reflexivity | ].
  split; vm_compute; reflexivity.
Qed.

(** ** What a run does to the heap *)

Lemma length_solved_heap a b c d e f g i j sol :
  length (solved_heap a b c d e f g i j sol) = 15%nat.
Proof. reflexivity. Qed.

Lemma length_setup_heap a b c d e f g i j :
  length (setup_heap a b c d e f g i j) = 15%nat.
Proof. reflexivity. Qed.

(** A run leaves every object that was on the heap before it as it was
    and adds fifteen objects behind them (the network, seven components,
    seven connections), whether the solver returns or raises; what it
    returns refers to the new objects only. *)
Theorem run_rankine_appends solve a b c d e f g i j (pre : heap) :
  exists l,
    (run_rankine solve a b c d e f g i j pre).2 = pre ++ l /\
    length l = 15%nat /\
    match (run_rankine solve a b c d e f g i j pre).1 with
    | Ok (nw, conns, comps) =>
        nw = length pre /\
        conns = map (Nat.add (length pre)) [12; 8; 9; 10; 11; 13; 14]%nat /\
        comps = map (Nat.add (length pre)) [2; 4; 5; 3]%nat
    | Raise _ => True
    end.
Proof.
  pose proof (sim_run_rankine pre a b c d e f g i j solve []) as H.
  unfold lift in H. cbn [map] in H. rewrite app_nil_r in H.
  rewrite run_rankine_heap in H.
  destruct (solve "design" _) as [sol|x].
  - destruct H as (r & Hrun & Hn & Hc & Hp). rewrite Hrun.
    eexists. split; [reflexivity | ].
    split; [rewrite length_map; apply length_solved_heap | ].
    destruct r as [[nw conns] comps]. cbn [fst snd first_refs] in *.
    unfold shifted in Hn. repeat split; [lia | assumption | assumption].
  - rewrite H. eexists. split; [reflexivity | ].
    split; [rewrite length_map; apply length_setup_heap | exact I].
Qed.


(** ** The stand-alone script (rankine_model.py) *)

Lemma read_connection (h : heap) r s sid t tid vals label attrs fl name dd :
  h !! r = Some (Connection s sid t tid label (solved vals label attrs) fl) ->
  attrs !! name = Some dd ->
  attr_val r name h = (Ok (shown (solution_val vals label name) (val dd)), h).
Proof.
  intros Hr Ha. rewrite <- val_after.
  eapply attr_val_connection; [exact Hr | apply solved_lookup, Ha].
Qed.

Section Script.
Variable solve : solver.
Variable sol : solution.
Hypothesis Hsolve : solve "design" DesignPoint.network = Ok sol.
Abbreviation Hscript := (solved_heap 600 150 532 0.1 20 30 1.2 0.9 0.75 sol).
Abbreviation at4 := (solution_val (conn_vals sol) "4").
Abbreviation at1 := (solution_val (conn_vals sol) "1").

Lemma script_run :
  run_rankine solve 600 150 532 0.1 20 30 1.2 0.9 0.75 [] = (Ok first_refs, Hscript).
Proof.
  rewrite run_rankine_heap.
  change (rankine_network 600 150 532 0.1 20 30 1.2 0.9 0.75) with DesignPoint.network.
  rewrite Hsolve. reflexivity.
Qed.

Lemma read4 name :
  connection_attrs !! name = Some unset ->
  attr_val 11%nat name Hscript = (Ok (at4 name), Hscript).
Proof.
  intros Ha. erewrite read_connection; [ | reflexivity | exact Ha].
  cbn [val unset]. rewrite shown_None. reflexivity.
Qed.

Lemma read1_h : attr_val 8%nat "h" Hscript = (Ok (at1 "h"), Hscript).
Proof.
  erewrite read_connection; [ | reflexivity | reflexivity].
  cbn [val unset]. rewrite shown_None. reflexivity.
Qed.

Lemma read1_T : attr_val 8%nat "T" Hscript = (Ok (Some (default 600 (at1 "T"))), Hscript).
Proof.
  erewrite read_connection; [ | reflexivity | reflexivity].
  cbn [nv_label link].
  destruct (at1 "T"); reflexivity.
Qed.

Lemma read1_p : attr_val 8%nat "p" Hscript = (Ok (Some (default 150 (at1 "p"))), Hscript).
Proof.
  erewrite read_connection; [ | reflexivity | reflexivity].
  cbn [nv_label link].
  destruct (at1 "p"); reflexivity.
Qed.

Lemma script_prints T4 p4 h4 h1 :
  at4 "T" = Some T4 -> at4 "p" = Some p4 -> at4 "h" = Some h4 -> at1 "h" = Some h1 ->
  rankine_model solve []
  = (Ok [T4; p4; h4; default 600 (at1 "T"); default 150 (at1 "p"); h1], Hscript).
Proof.
  intros HT Hp Hh Hh1. unfold rankine_model.
  erewrite bind_ok; [ | apply script_run].
  erewrite bind_ok; [ | reflexivity].
  erewrite bind_ok; [ | reflexivity].
  erewrite bind_ok; [ | eapply number_read_ok; [apply read4; reflexivity | exact HT]].
  erewrite bind_ok; [ | eapply number_read_ok; [apply read4; reflexivity | exact Hp]].
  erewrite bind_ok; [ | eapply number_read_ok; [apply read4; reflexivity | exact Hh]].
  erewrite bind_ok; [ | eapply number_read_ok; [apply read1_T | reflexivity]].
  erewrite bind_ok; [ | eapply number_read_ok; [apply read1_p | reflexivity]].
  erewrite bind_ok; [ | eapply number_read_ok; [apply read1_h | exact Hh1]].
  reflexivity.
Qed.

End Script.

(** The stand-alone script prints six numbers when the solver left
    temperature, pressure and enthalpy at connection 4 and the enthalpy at
    connection 1: those four as the solver left them, and for the
    temperature and pressure of connection 1 the solver's number or, where
    it left none, the 600 C and 150 bar the script fixed. *)
Theorem rankine_model_prints solve sol T4 p4 h4 h1 :
  solve "design" DesignPoint.network = Ok sol ->
  solution_val (conn_vals sol) "4" "T" = Some T4 ->
  solution_val (conn_vals sol) "4" "p" = Some p4 ->
  solution_val (conn_vals sol) "4" "h" = Some h4 ->
  solution_val (conn_vals sol) "1" "h" = Some h1 ->
  (rankine_model solve []).1
  = Ok [ T4; p4; h4;
         default 600 (solution_val (conn_vals sol) "1" "T");
         default 150 (solution_val (conn_vals sol) "1" "p"); h1 ].
Proof.
  intros Hs HT Hp Hh Hh1.
  rewrite (script_prints solve sol Hs T4 p4 h4 h1); auto.
Qed.

Lemma rankine_model_prints_designed :
  (rankine_model designed []).1 = Ok [46.6; 500 # 3; 214.21; 600; 150; 3583.1].
Proof.
  apply (rankine_model_prints designed design_answer 46.6 (500 # 3) 214.21 3583.1);
    reflexivity.
Defined.



(** Nothing in the stand-alone script catches an exception of the solver:
    the script ends with it. *)
Theorem rankine_model_passes_exception solve x :
  solve "design" DesignPoint.network = Raise x ->
  (rankine_model solve []).1 = Raise x.
Proof.
  intros Hs. unfold rankine_model. erewrite bind_raise; [reflexivity | ].
  rewrite run_rankine_heap.
  change (rankine_network 600 150 532 0.1 20 30 1.2 0.9 0.75) with DesignPoint.network.
  rewrite Hs. reflexivity.
Qed.

Lemma rankine_model_passes_exception_failing :
  (rankine_model DesignPoint.failing []).1 = Raise (LibraryError "singularity").
Proof.
  apply (rankine_model_passes_exception DesignPoint.failing). reflexivity.
Defined.

(** ** The energy-flow diagram *)

Lemma reachable_results solve u k s :
  reachable u = true -> app solve u = Results k s ->
  exists Qsg Ptu Pfp Qmc,
    ~ Qsg == 0 /\
    k = {| boiler_heat_duty := Qsg / 1000;
           turbine_power := Qabs (Ptu / 1000);
           pump_power := Pfp / 1000;
           net_power_output := Qabs (Ptu / 1000) - Pfp / 1000;
           thermal_efficiency := (Qabs (Ptu / 1000) - Pfp / 1000) * 1000 / Qsg * 100;
           coal_flow := Qsg / 1000 / (coal_cv (sidebar u) * boiler_eff (sidebar u));
           cw_flow := cw_flow k |} /\
    s = {| boiler_heat_mw := Qsg / 1000000;
           turbine_power_mw := Qabs (Ptu / 1000000);
           pump_power_mw := Pfp / 1000000;
           condenser_heat_mw := Qabs (Qmc / 1000000);
           net_power_mw := Qabs (Ptu / 1000000) - Pfp / 1000000;
           coal_input_mw := Qsg / 1000000 / boiler_eff (sidebar u);
           boiler_loss_mw := Qsg / 1000000 / boiler_eff (sidebar u) - Qsg / 1000000 |}.
Proof.
  intros Hu Hpage.
  destruct (solve "design" (network_of (sidebar u))) as [sol|x] eqn:Hs.
  2:{ rewrite app_unfold, Hs in Hpage. discriminate. }
  destruct (app_cases solve u sol Hu Hs)
    as [(Qsg & Ptu & Pfp & Qmc & k' & s' & _ & _ & _ & _ & Hnz & Hpage' & Hk & Hs')
       | (e & Hpage' & _)].
  2:{ rewrite Hpage' in Hpage. discriminate. }
  rewrite Hpage' in Hpage. injection Hpage as Hk' Hs''. subst k' s'.
  exists Qsg, Ptu, Pfp, Qmc. split; [exact Hnz | ]. split; [ | exact Hs'].
  rewrite Hk. reflexivity.
Qed.



(** With a heat duty that is not negative, the boiler loss of the diagram
    lies between zero and the heat duty itself, the efficiency slider
    ending at 50 %, and the coal input is at most twice the heat duty. *)
Theorem boiler_loss_bounds solve u k s :
  reachable u = true ->
  app solve u = Results k s ->
  0 <= boiler_heat_mw s ->
  0 <= boiler_loss_mw s /\ boiler_loss_mw s <= boiler_heat_mw s /\
  boiler_heat_mw s <= coal_input_mw s /\ coal_input_mw s <= 2 * boiler_heat_mw s.
Proof.
  intros Hu Hpage Hpos.
  destruct (reachable_boiler_eff u Hu) as [Hlo Hhi].
  destruct (reachable_results solve u k s Hu Hpage)
    as (Qsg & Ptu & Pfp & Qmc & _ & _ & Hs).
  subst s.
  cbn [boiler_heat_mw boiler_loss_mw coal_input_mw] in *.
  set (q := Qsg / 1000000) in *. set (eff := boiler_eff (sidebar u)) in *.
  assert (Heff : 0 < eff) by lra.
  assert (E : q / eff * eff == q) by (field; lra).
  assert (H1 : q <= q / eff) by nra.
  assert (H2 : q / eff <= 2 * q) by nra.
  lra.
Qed.

Lemma boiler_loss_bounds_stalled :
  exists k s,
    app DesignPoint.stalled untouched = Results k s /\
    0 <= boiler_loss_mw s /\ boiler_loss_mw s <= boiler_heat_mw s /\
    boiler_heat_mw s <= coal_input_mw s /\ coal_input_mw s <= 2 * boiler_heat_mw s.
Proof.
  do 2 eexists. split; [vm_compute; reflexivity | ].
  eapply (boiler_loss_bounds DesignPoint.stalled untouched);
    [ reflexivity | vm_compute; reflexivity | vm_compute; discriminate ].
Defined.
